(** * Excel/CSV compiler: schema matching and accumulation

    A shallow embedding of [app.py], the Streamlit script that compiles
    several uploaded CSV/Excel files into one table, and the proofs of its
    documented properties.

    Conventions of the embedding.
    - A Python [str] is a Rocq [string] whose characters are the code points
      of the text, for code points up to U+00FF; on that range
      [str.lower], [str.strip] and [str.endswith] are written out in full.
    - A pandas [DataFrame] is its column labels and its rows, both in order;
      the row index is not modelled (the script always drops it), and the
      dtype of a column is read off its cells.
    - [st.session_state] is a record that every handler takes and returns.
    - A raised exception is the left summand of a sum type; the script's
      single [except Exception] turns it into an error message. *)

From stdpp Require Import gmap strings list.
From Stdlib Require Import ZArith Ascii DecimalString DecimalZ.

Local Open Scope Z_scope.

(** ** Python strings *)

Module PyStr.

Definition code (c : ascii) : N := N_of_ascii c.

(** [str.isspace] on one character: the white space of Unicode below
    U+0100 is TAB..CR, FS..US, SPACE, NEL and NBSP. *)
Definition isspace (c : ascii) : bool :=
  let n := code c in
  ((9 <=? n) && (n <=? 13) || (28 <=? n) && (n <=? 32)
   || (n =? 133) || (n =? 160))%N.

(** [str.lower] on one character: A..Z and the Latin-1 capitals
    U+00C0..U+00DE (the multiplication sign U+00D7 apart) move up by 32. *)
Definition lower_char (c : ascii) : ascii :=
  let n := code c in
  if ((65 <=? n) && (n <=? 90)
      || (192 <=? n) && (n <=? 222) && negb (n =? 215))%N
  then ascii_of_N (n + 32) else c.

Fixpoint lower (s : string) : string :=
  match s with
  | EmptyString => EmptyString
  | String c s' => String (lower_char c) (lower s')
  end.

Fixpoint lstrip (s : string) : string :=
  match s with
  | EmptyString => EmptyString
  | String c s' => if isspace c then lstrip s' else s
  end.

Fixpoint rstrip (s : string) : string :=
  match s with
  | EmptyString => EmptyString
  | String c s' =>
      match rstrip s' with
      | EmptyString => if isspace c then EmptyString else String c EmptyString
      | r => String c r
      end
  end.

(** [s.strip()]: white space is dropped from the left end, then from the
    right end of what is left. *)
Definition strip (s : string) : string := rstrip (lstrip s).

(** The slice [s[k:]]. *)
Fixpoint slice_from (k : nat) (s : string) : string :=
  match k, s with
  | O, _ => s
  | S k', String _ s' => slice_from k' s'
  | S _, EmptyString => EmptyString
  end.

(** [s.endswith(suffix)]: [suffix] is no longer than [s] and the last
    [len(suffix)] characters of [s] are [suffix]. *)
Definition endswith (s suffix : string) : bool :=
  let n := String.length s in
  let m := String.length suffix in
  (m <=? n)%nat && bool_decide (slice_from (n - m) s = suffix).

(** Every character is white space. *)
Fixpoint all_space (s : string) : bool :=
  match s with
  | EmptyString => true
  | String c s' => isspace c && all_space s'
  end.

Definition head (s : string) : option ascii :=
  match s with
  | EmptyString => None
  | String c _ => Some c
  end.

Fixpoint last (s : string) : option ascii :=
  match s with
  | EmptyString => None
  | String c EmptyString => Some c
  | String _ s' => last s'
  end.

End PyStr.

(** A name "ends case-insensitively in [suffix]" when some suffix of it
    lower-cases to [suffix]. *)
Definition ends_ci (s suffix : string) : Prop :=
  ∃ pre t, s = pre +:+ t ∧ PyStr.lower t = suffix.

(** The same character, or the same letter A..Z in its two cases. *)
Definition same_letter (x y : ascii) : Prop :=
  x = y
  ∨ (PyStr.code x + 32 = PyStr.code y ∧ 65 ≤ PyStr.code x ≤ 90)%N
  ∨ (PyStr.code y + 32 = PyStr.code x ∧ 65 ≤ PyStr.code y ≤ 90)%N.

(** Two texts of the same length with the same letters, whatever their
    case. *)
Fixpoint same_text (t suffix : string) : Prop :=
  match t, suffix with
  | EmptyString, EmptyString => True
  | String x t', String y suffix' => same_letter x y ∧ same_text t' suffix'
  | _, _ => False
  end.

(** The name ends in [suffix], letters compared whatever their case. This
    is said without [PyStr.lower]. *)
Definition ends_any_case (s suffix : string) : Prop :=
  ∃ pre t, s = pre +:+ t ∧ same_text t suffix.

(** A text of characters below U+0080 without capital letters. *)
Fixpoint plain (s : string) : bool :=
  match s with
  | EmptyString => true
  | String c s' =>
      (PyStr.code c <? 128)%N
      && negb ((65 <=? PyStr.code c)%N && (PyStr.code c <=? 90)%N)
      && plain s'
  end.

(** The codes of the white space characters below U+0100. *)
Definition white_space_codes : list N :=
  [9; 10; 11; 12; 13; 28; 29; 30; 31; 32; 133; 160]%N.

(** ** Column labels and cells *)

(** A column label as the readers produce it: header text, or a number when
    the header cell holds one. *)
Inductive label : Type :=
  | LStr (s : string)
  | LInt (z : Z).

(** [str(c)] of a label: the text itself, or the decimal numeral of the
    number, with a minus sign when it is negative. *)
Definition py_str (c : label) : string :=
  match c with
  | LStr s => s
  | LInt z => NilZero.string_of_int (Z.to_int z)
  end.

(** A cell: a missing value, an integer, the double [m * 2 ^ e], or a
    text. *)
Inductive scalar : Type :=
  | NaN
  | SInt (z : Z)
  | SFloat (m e : Z)
  | SStr (s : string).

Global Instance label_eq_dec : EqDecision label.
Proof. solve_decision. Defined.

Global Instance scalar_eq_dec : EqDecision scalar.
Proof. solve_decision. Defined.

(** ** Schema helpers of the script *)

(** [normalize_columns]: [[str(c).strip() for c in cols]]. *)
Definition normalize_columns (cols : list label) : list string :=
  (λ c, PyStr.strip (py_str c)) <$> cols.

(** [cols_match]: list equality, [expected == incoming]. *)
Definition cols_match (expected incoming : list string) : bool :=
  bool_decide (expected = incoming).

(** [diff_cols]: the two label sets, the two comprehensions filtering
    against them, and the order flag. *)
Definition diff_cols (expected incoming : list string)
  : list string * list string * bool :=
  let exp_set : gset string := list_to_set expected in
  let inc_set : gset string := list_to_set incoming in
  let missing := filter (λ c, c ∉ inc_set) expected in
  let extra := filter (λ c, c ∉ exp_set) incoming in
  let order_issue :=
    bool_decide (exp_set = inc_set) && negb (bool_decide (expected = incoming)) in
  (missing, extra, order_issue).

(** ** Data frames *)

Record DataFrame (L : Type) : Type := {
  columns : list L;
  rows : list (list scalar)
}.
Arguments columns {L} _.
Arguments rows {L} _.

(** The invariant of a frame: every row has one cell per column. *)
Definition wf {L : Type} (df : DataFrame L) : Prop :=
  Forall (λ r : list scalar, length r = length (columns df)) (rows df).

(** [df.columns = cols]. pandas refuses a list of another length; the
    script only assigns [normalize_columns(df.columns)], which has the
    length of [df.columns]. *)
Definition set_columns {L M : Type} (df : DataFrame L) (cols : list M)
  : DataFrame M :=
  {| columns := cols; rows := rows df |}.

(** The cells of [row] under the label [key] become [v]. *)
Fixpoint fill_where (key : string) (v : scalar)
    (cols : list string) (row : list scalar) : list scalar :=
  match cols, row with
  | c :: cols', x :: row' =>
      (if decide (c = key) then v else x) :: fill_where key v cols' row'
  | _, _ => row
  end.

(** [df[key] = v] for a scalar [v]: every column already labelled [key] is
    overwritten in place; if there is none, a new last column is added. *)
Definition setitem (df : DataFrame string) (key : string) (v : scalar)
  : DataFrame string :=
  if decide (key ∈ columns df)
  then {| columns := columns df;
          rows := fill_where key v (columns df) <$> rows df |}
  else {| columns := columns df ++ [key];
          rows := (λ r, r ++ [v]) <$> rows df |}.

(** The cell of [row] under the label [c], [NaN] when the label is absent. *)
Fixpoint cell_at (cols : list string) (row : list scalar) (c : string)
  : scalar :=
  match cols, row with
  | k :: cols', x :: row' => if decide (k = c) then x else cell_at cols' row' c
  | _, _ => NaN
  end.

(** A row laid out for the labels [new]. *)
Definition reindex (old new : list string) (row : list scalar)
  : list scalar :=
  cell_at old row <$> new.

Inductive exception : Type :=
  | ValueError (msg : string)
  | InvalidIndexError (msg : string)
  | ReadError (msg : string).

(** [str(e)]. *)
Definition exc_str (e : exception) : string :=
  match e with
  | ValueError m | InvalidIndexError m | ReadError m => m
  end.

Definition has_dup (l : list string) : bool := negb (bool_decide (NoDup l)).

(** The double nearest to an integer, ties to the even significand; it is
    an integer again. This is what a cell of an int64 column becomes when
    the column is converted to float64. *)
Definition float_of_int (z : Z) : Z :=
  let a := Z.abs z in
  if a <? 2 ^ 53 then z
  else
    let k := Z.log2 a - 52 in
    let q := a / 2 ^ k in
    let r := a mod 2 ^ k in
    let half := 2 ^ (k - 1) in
    let q' := if (half <? r) || ((r =? half) && Z.odd q) then q + 1 else q in
    Z.sgn z * (q' * 2 ^ k).

Definition to_float (x : scalar) : scalar :=
  match x with
  | SInt z => SFloat (float_of_int z) 0
  | _ => x
  end.

(** The dtype pandas holds a column in, read off its cells: object as
    soon as there is a text, int64 when every cell is an integer, float64
    otherwise (missing values and doubles). A frame as pandas holds it has
    no integer cell in a float64 column. *)
Inductive dtype : Type := NoRows | Int64 | Float64 | Object.

Definition is_str (x : scalar) : bool :=
  match x with SStr _ => true | _ => false end.

Definition is_int (x : scalar) : bool :=
  match x with SInt _ => true | _ => false end.

Definition dtype_of (cells : list scalar) : dtype :=
  match cells with
  | [] => NoRows
  | _ => if existsb is_str cells then Object
         else if forallb is_int cells then Int64 else Float64
  end.

(** The cells of column number [j]. *)
Definition column_at (j : nat) (rws : list (list scalar)) : list scalar :=
  (λ r, default NaN (r !! j)) <$> rws.

(** What stacking does to a row of the frame with rows [mine] when it is
    stacked with the rows [other]: where a column is int64 on this side
    and float64 on the other, the result column is float64 and the
    integers of this side are converted; every other pairing keeps the
    cells (int64 with int64, and anything with object). *)
Definition upcast (mine other : list (list scalar)) (row : list scalar)
  : list scalar :=
  imap (λ j x, match dtype_of (column_at j mine),
                     dtype_of (column_at j other) with
               | Int64, Float64 => to_float x
               | _, _ => x
               end) row.

(** The rows of two frames laid out for the same labels, stacked. *)
Definition stack (ra rb : list (list scalar)) : list (list scalar) :=
  (upcast ra rb <$> ra) ++ (upcast rb ra <$> rb).

(** A cell and what stacking can make of it: the cell itself or, for an
    integer, the double nearest to it. *)
Definition same_value (x y : scalar) : Prop :=
  y = x ∨ ∃ z, x = SInt z ∧ y = SFloat (float_of_int z) 0.

(** No column is int64 in one of the two lists of rows and float64 in
    the other. *)
Definition compatible (ra rb : list (list scalar)) : Prop :=
  ∀ j, ¬ (dtype_of (column_at j ra) = Int64
          ∧ dtype_of (column_at j rb) = Float64)
       ∧ ¬ (dtype_of (column_at j rb) = Int64
            ∧ dtype_of (column_at j ra) = Float64).

(** [pd.concat([a, b], ignore_index=True)] along the rows. When the two
    label sequences are equal they are kept and the rows are stacked. When
    they differ the result has the labels of [a] followed by the new labels
    of [b], every row is laid out again for them, and pandas refuses to do
    that for a frame with a repeated label. Stacking brings each column to
    one dtype. A [None] entry is dropped. *)
Definition concat (a : option (DataFrame string)) (b : DataFrame string)
  : exception + DataFrame string :=
  match a with
  | None => inr b
  | Some a =>
      if decide (columns a = columns b)
      then inr {| columns := columns a; rows := stack (rows a) (rows b) |}
      else if has_dup (columns a) || has_dup (columns b)
      then inl (InvalidIndexError
                  "Reindexing only valid with uniquely valued Index objects")
      else
        let u := columns a ++ filter (λ c, c ∉ columns a) (columns b) in
        inr {| columns := u;
               rows := stack (reindex (columns a) u <$> rows a)
                             (reindex (columns b) u <$> rows b) |}
  end.

(** ** Export *)

Record Sheet : Type := {
  sheet_name : string;
  sheet_rows : list (list scalar)
}.

(** [df.to_excel(writer, index=False, sheet_name=name)]: the header row,
    then the data rows, without the index column. *)
Definition to_excel (df : DataFrame string) (name : string) : Sheet :=
  {| sheet_name := name; sheet_rows := (SStr <$> columns df) :: rows df |}.

(** The [file_name] argument of the download button. *)
Definition download_file_name (filename : string) : string :=
  if PyStr.endswith (PyStr.lower filename) ".xlsx"
  then filename else filename +:+ ".xlsx".

(** ** Session state and sidebar controls *)

Record SessionState : Type := {
  expected_cols : option (list string);
  compiled_df : option (DataFrame string);
  uploaded_files : list string
}.

(** The state the script initialises on the first run of a session. *)
Definition initial_state : SessionState :=
  {| expected_cols := None; compiled_df := None; uploaded_files := [] |}.

(** The body of the "Reset / Clear all" button. *)
Definition reset (st : SessionState) : SessionState :=
  {| expected_cols := None; compiled_df := None; uploaded_files := [] |}.

Record Controls : Type := {
  add_source_col : bool;
  source_col_name : string
}.

(** What the upload block shows to the user. *)
Inductive report : Type :=
  | FirstLoaded (ncols nrows : nat)
  | Appended (nrows : nat) (file : string)
  | Mismatch (missing extra : list string) (order_issue : bool)
             (expected incoming : list string)
  | Failed (msg : string).

Definition unsupported : exception :=
  ValueError "Unsupported file type. Please upload .csv, .xlsx, or .xls".

Section Script.

(** The uploaded bytes are opaque to the script: only the pandas readers
    look inside them. *)
Variable content : Type.

Record UploadedFile : Type := {
  name : string;
  data : content
}.

(** [pd.read_csv] and [pd.read_excel(..., engine="openpyxl")], which
    return a frame or raise. *)
Variable read_csv : UploadedFile → exception + DataFrame label.
Variable read_excel : UploadedFile → exception + DataFrame label.

(** The openpyxl writer: the bytes of a workbook with the given sheets,
    unless it raises. *)
Variable save_workbook : list Sheet → exception + list Byte.byte.

Definition read_any_table (uploaded_file : UploadedFile)
  : exception + DataFrame label :=
  let name := PyStr.lower (name uploaded_file) in
  if PyStr.endswith name ".csv" then read_csv uploaded_file
  else if PyStr.endswith name ".xlsx" || PyStr.endswith name ".xls"
  then read_excel uploaded_file
  else inl unsupported.

Definition to_excel_bytes (df : DataFrame string)
  : exception + list Byte.byte :=
  save_workbook [to_excel df "compiled"].

(** [if add_source_col: df_new[source_col_name] = uploaded.name]. *)
Definition add_source (ctl : Controls) (uploaded : UploadedFile)
    (df_new : DataFrame string) : DataFrame string :=
  if add_source_col ctl
  then setitem df_new (source_col_name ctl) (SStr (name uploaded))
  else df_new.

(** The upload block for an uploaded file: one pass through the [try]. *)
Definition upload (ctl : Controls) (st : SessionState)
    (uploaded : UploadedFile) : SessionState * report :=
  match read_any_table uploaded with
  | inl e => (st, Failed ("Failed to read file: " +:+ exc_str e))
  | inr df_raw =>
      let df_new := set_columns df_raw (normalize_columns (columns df_raw)) in
      match expected_cols st with
      | None =>
          let expected := columns df_new in
          let df_new := add_source ctl uploaded df_new in
          ({| expected_cols := Some expected;
              compiled_df := Some df_new;
              uploaded_files := uploaded_files st ++ [name uploaded] |},
           FirstLoaded (length expected) (length (rows df_new)))
      | Some expected =>
          let incoming_cols := columns df_new in
          if cols_match expected incoming_cols then
            let df_new := add_source ctl uploaded df_new in
            match concat (compiled_df st) df_new with
            | inl e => (st, Failed ("Failed to read file: " +:+ exc_str e))
            | inr df_all =>
                ({| expected_cols := expected_cols st;
                    compiled_df := Some df_all;
                    uploaded_files := uploaded_files st ++ [name uploaded] |},
                 Appended (length (rows df_new)) (name uploaded))
            end
          else
            let '(missing, extra, order_issue) :=
              diff_cols expected incoming_cols in
            (st, Mismatch missing extra order_issue expected incoming_cols)
      end
  end.

(** The upload block of one run of the script; the uploader widget holds
    a file or nothing. *)
Definition upload_block (ctl : Controls) (st : SessionState)
    (uploaded : option UploadedFile) : SessionState * option report :=
  match uploaded with
  | None => (st, None)
  | Some f => let '(st', r) := upload ctl st f in (st', Some r)
  end.

(** The states left by a sequence of uploads, each with the controls
    as they were set at that run. *)
Definition uploads (st : SessionState)
    (runs : list (Controls * UploadedFile)) : SessionState :=
  foldl (λ st run, (upload run.1 st run.2).1) st runs.

(** An upload that reads well and whose normalized labels are not
    [expected]. *)
Definition mismatching (expected : list string) (uploaded : UploadedFile)
  : Prop :=
  ∃ df, read_any_table uploaded = inr df
        ∧ normalize_columns (columns df) ≠ expected.

End Script.

Arguments name {content} _.
Arguments data {content} _.

(** The provenance column in the words of the specification: when the
    option is on, a new last column named [source_col_name] that holds the
    file name in every row. To be compared with [add_source]. *)
Definition provenance (ctl : Controls) (filename : string)
    (df : DataFrame string) : DataFrame string :=
  if add_source_col ctl
  then {| columns := columns df ++ [source_col_name ctl];
          rows := (λ r, r ++ [SStr filename]) <$> rows df |}
  else df.

(** The labels of a frame with labels [cols] once [add_source] has run. *)
Definition source_columns (ctl : Controls) (cols : list string)
  : list string :=
  if add_source_col ctl
  then if decide (source_col_name ctl ∈ cols)
       then cols else cols ++ [source_col_name ctl]
  else cols.

(** The compiled table has the labels that [add_source] gives to an upload
    with the expected labels. *)
Definition layout_ok (ctl : Controls) (st : SessionState) : Prop :=
  match expected_cols st, compiled_df st with
  | None, None => True
  | Some expected, Some compiled =>
      columns compiled = source_columns ctl expected
  | _, _ => False
  end.

(** ** Sessions and the dashboard *)

(** [df.head(n)]: the first [n] rows. *)
Definition df_head (n : nat) (df : DataFrame string) : DataFrame string :=
  {| columns := columns df; rows := take n (rows df) |}.

(** [sep.join(l)]. *)
Fixpoint join (sep : string) (l : list string) : string :=
  match l with
  | [] => ""
  | [x] => x
  | x :: rest => x +:+ sep +:+ join sep rest
  end.

(** The default of the "Output filename" input; [stamp] is what
    [datetime.now().strftime('%Y%m%d_%H%M%S')] returns at that run. *)
Definition default_name (stamp : string) : string :=
  "compiled_" +:+ stamp +:+ ".xlsx".

(** [len(df_all)] of the compiled table, 0 while there is none. *)
Definition row_count (st : SessionState) : nat :=
  from_option (λ df, length (rows df)) 0%nat (compiled_df st).

(** The download button: the bytes of the workbook and the file name. *)
Record Download : Type := {
  excel_bytes : list Byte.byte;
  file_name : string
}.

(** What the second half of the script puts on the page once there is a
    compiled table: the three metrics, the list of files, then the
    preview and the download button. [st.dataframe] refuses a frame with
    a repeated column label and the workbook writer may raise; neither
    call stands in a [try], so the run ends there: [preview] and
    [download] are what the run got to show. *)
Record Dashboard : Type := {
  files_added : nat;
  total_rows : nat;
  total_columns : nat;
  uploaded_line : string;
  preview : option (DataFrame string);
  download : option Download
}.

(** The success reports, and the row count they announce. *)
Definition accepted (r : report) : bool :=
  match r with
  | FirstLoaded _ _ | Appended _ _ => true
  | Mismatch _ _ _ _ _ | Failed _ => false
  end.

Definition report_rows (r : report) : nat :=
  match r with
  | FirstLoaded _ n | Appended n _ => n
  | Mismatch _ _ _ _ _ | Failed _ => 0%nat
  end.

(** The three session fields are set together: all absent, or the labels
    and the table present and at least one file recorded. *)
Definition coherent (st : SessionState) : Prop :=
  match expected_cols st, compiled_df st with
  | None, None => uploaded_files st = []
  | Some _, Some _ => uploaded_files st ≠ []
  | _, _ => False
  end.

Section Session.

Variable content : Type.
Variable read_csv : UploadedFile content → exception + DataFrame label.
Variable read_excel : UploadedFile content → exception + DataFrame label.
Variable save_workbook : list Sheet → exception + list Byte.byte.

(** One run of the script changes the session either through the reset
    button or through the upload block. *)
Inductive event : Type :=
  | Upload (ctl : Controls) (f : UploadedFile content)
  | ResetClick.

Definition step (st : SessionState) (ev : event) : SessionState :=
  match ev with
  | Upload ctl f => (upload content read_csv read_excel ctl st f).1
  | ResetClick => reset st
  end.

Definition session (st : SessionState) (evs : list event) : SessionState :=
  foldl step st evs.

(** The reports shown along a sequence of uploads. *)
Fixpoint trace (st : SessionState)
    (runs : list (Controls * UploadedFile content)) : list report :=
  match runs with
  | [] => []
  | run :: rest =>
      let '(st', r) := upload content read_csv read_excel run.1 st run.2 in
      r :: trace st' rest
  end.

(** The names of the files whose upload was reported as a success. *)
Fixpoint accepted_files (st : SessionState)
    (runs : list (Controls * UploadedFile content)) : list string :=
  match runs with
  | [] => []
  | run :: rest =>
      let '(st', r) := upload content read_csv read_excel run.1 st run.2 in
      (if accepted r then [name run.2] else []) ++ accepted_files st' rest
  end.

(** Section 2 and 3 of the page. [filename] is the content of the
    "Output filename" input; nothing is shown but a notice while there is
    no compiled table. *)
Definition display (st : SessionState) (filename : string)
  : option Dashboard :=
  match compiled_df st with
  | None => None
  | Some df_all =>
      let shown :=
        if has_dup (columns df_all) then None
        else Some (df_head 200 df_all) in
      Some {| files_added := length (uploaded_files st);
              total_rows := length (rows df_all);
              total_columns := length (columns df_all);
              uploaded_line := join ", " (uploaded_files st);
              preview := shown;
              download :=
                match shown, to_excel_bytes save_workbook df_all with
                | Some _, inr bytes =>
                    Some {| excel_bytes := bytes;
                            file_name := download_file_name filename |}
                | _, _ => None
                end |}
  end.

End Session.

Arguments Upload {content} _ _.
Arguments ResetClick {content}.

(** ** Sample sessions

    Concrete files, readers and controls on which the statements below are
    run. The sample reader takes the uploaded content to be the decoded
    frame itself. *)

Module Sample.

Definition file : Type := UploadedFile (DataFrame label).

Definition reader (f : file) : exception + DataFrame label := inr (data f).

Definition writer (sheets : list Sheet) : exception + list Byte.byte :=
  inr [].

Definition run := upload (DataFrame label) reader reader.

Definition tagging : Controls :=
  {| add_source_col := true; source_col_name := "source_file" |}.

Definition plain : Controls :=
  {| add_source_col := false; source_col_name := "source_file" |}.

Definition f1 : file :=
  {| name := "f1.csv";
     data := {| columns := [LStr "id"; LStr "name"];
                rows := [[SInt 1; SStr "a"]; [SInt 2; SStr "b"]] |} |}.

Definition f2 : file :=
  {| name := "f2.csv";
     data := {| columns := [LStr "id"; LStr "name"];
                rows := [[SInt 3; SStr "c"]] |} |}.

Definition reordered : file :=
  {| name := "f3.xlsx";
     data := {| columns := [LStr "name"; LStr "id"];
                rows := [[SStr "d"; SInt 4]] |} |}.

Definition wider : file :=
  {| name := "f4.csv";
     data := {| columns := [LStr "id"; LStr "name"; LStr "extra"];
                rows := [[SInt 5; SStr "e"; NaN]] |} |}.

Definition notes : file :=
  {| name := "notes.txt";
     data := {| columns := [LStr "id"; LStr "name"]; rows := [] |} |}.


(** A file whose two headers differ only by white space. *)
Definition twins : file :=
  {| name := "twins.csv";
     data := {| columns := [LStr "a"; LStr " a"];
                rows := [[SInt 1; SInt 2]] |} |}.

(** Names in capitals and in mixed case, and a reader that refuses the
    bytes, to tell the two readers apart. *)
Definition shouting : file := {| name := "DATA.CSV"; data := data f1 |}.

Definition mixed : file := {| name := "Report.XlsX"; data := data f1 |}.

Definition legacy : file := {| name := "OLD.XLS"; data := data f1 |}.

Definition refusing (f : file) : exception + DataFrame label :=
  inl (ReadError "File is not a zip file").

(** Labels with white space around them and numeric labels. *)
Definition padded : list label :=
  [LStr "  id "; LStr (String "009" "name" +:+ String "010" "");
   LInt 2020; LInt (-7); LInt 0; LStr " a"; LStr "a "].

(** An identifier that no double represents, and a file with a missing
    identifier (its column is float64). *)
Definition big : file :=
  {| name := "big.csv";
     data := {| columns := [LStr "id"];
                rows := [[SInt 9007199254740993]] |} |}.

Definition gap : file :=
  {| name := "gap.csv";
     data := {| columns := [LStr "id"];
                rows := [[NaN]; [SFloat 5 (-1)]] |} |}.

(** The state after [f1] was uploaded with the provenance column on. *)
Definition seeded : SessionState := (run tagging initial_state f1).1.

End Sample.

(** ** String facts *)

Lemma app_cons (c : ascii) (a b : string) :
  String c a +:+ b = String c (a +:+ b).
Proof. done. Qed.

Lemma length_app_str (a b : string) :
  String.length (a +:+ b) = (String.length a + String.length b)%nat.
Proof.
  induction a as [|x a IH]; [done|].
  rewrite app_cons. simpl. by rewrite IH.
Qed.

Lemma slice_from_app (a b : string) :
  PyStr.slice_from (String.length a) (a +:+ b) = b.
Proof. induction a as [|x a IH]; [by destruct b|]. by rewrite app_cons. Qed.

Lemma slice_from_split (k : nat) (s : string) :
  (k ≤ String.length s)%nat →
  ∃ pre, s = pre +:+ PyStr.slice_from k s ∧ String.length pre = k.
Proof.
  revert s. induction k as [|k IH]; intros s Hk.
  - exists "". by destruct s.
  - destruct s as [|c s]; simpl in *; [lia|].
    destruct (IH s) as (pre & Hs & Hlen); [lia|].
    exists (String c pre). rewrite app_cons. simpl. by rewrite <- Hs, Hlen.
Qed.

(** [endswith] is the suffix relation. *)
Lemma endswith_true (s suffix : string) :
  PyStr.endswith s suffix = true ↔ ∃ pre, s = pre +:+ suffix.
Proof.
  unfold PyStr.endswith. rewrite andb_true_iff, bool_decide_eq_true.
  rewrite Nat.leb_le. split.
  - intros [Hle Hs].
    destruct (slice_from_split (String.length s - String.length suffix) s)
      as (pre & Hpre & _); [lia|].
    exists pre. by rewrite <- Hs.
  - intros [pre ->]. rewrite length_app_str. split; [lia|].
    replace (String.length pre + String.length suffix - String.length suffix)%nat
      with (String.length pre) by lia.
    apply slice_from_app.
Qed.

Lemma lower_app (a b : string) :
  PyStr.lower (a +:+ b) = PyStr.lower a +:+ PyStr.lower b.
Proof.
  induction a as [|x a IH]; [done|].
  rewrite app_cons. simpl. by rewrite IH, app_cons.
Qed.

Lemma lower_split (s p q : string) :
  PyStr.lower s = p +:+ q →
  ∃ a b, s = a +:+ b ∧ PyStr.lower a = p ∧ PyStr.lower b = q.
Proof.
  revert s. induction p as [|x p IH]; intros s Hs.
  - exists "", s. by destruct s.
  - destruct s as [|c s]; [done|].
    rewrite app_cons in Hs. simpl in Hs. injection Hs as Hc Hs.
    destruct (IH s Hs) as (a & b & -> & Ha & Hb).
    exists (String c a), b. rewrite app_cons. simpl. by rewrite Hc, Ha.
Qed.

Lemma endswith_lower (s suffix : string) :
  PyStr.endswith (PyStr.lower s) suffix = true ↔ ends_ci s suffix.
Proof.
  rewrite endswith_true. split.
  - intros [p Hp]. destruct (lower_split s p suffix Hp) as (a & b & ? & _ & ?).
    by exists a, b.
  - intros (pre & t & -> & <-). exists (PyStr.lower pre). apply lower_app.
Qed.

(** [lower_char] against the letters: a character lower-cases to a plain
    character exactly when it is that character or its capital. *)
Lemma lower_char_plain (x y : ascii) :
  (PyStr.code y < 128)%N → ¬ (65 ≤ PyStr.code y ≤ 90)%N →
  PyStr.lower_char x = y ↔ same_letter x y.
Proof.
  unfold PyStr.lower_char, same_letter, PyStr.code. intros Hy Hup.
  pose proof (N_ascii_bounded x) as Hx.
  destruct ((65 <=? N_of_ascii x)%N && (N_of_ascii x <=? 90)%N
            || (192 <=? N_of_ascii x)%N && (N_of_ascii x <=? 222)%N
               && negb (N_of_ascii x =? 215)%N) eqn:Hc.
  - apply orb_true_iff in Hc.
    assert (ascii_of_N (N_of_ascii x + 32) = y
            ↔ (N_of_ascii x + 32 = N_of_ascii y)%N) as ->.
    { split.
      - intros <-. rewrite N_ascii_embedding; [done|].
        destruct Hc as [Hc|Hc]; repeat (apply andb_true_iff in Hc as [Hc ?]);
          apply N.leb_le in Hc; repeat match goal with
            H : (_ <=? _)%N = true |- _ => apply N.leb_le in H end; lia.
      - intros ->. apply ascii_N_embedding. }
    split.
    + intros Heq. right; left. split; [done|].
      destruct Hc as [Hc|Hc]; repeat (apply andb_true_iff in Hc as [Hc ?]);
        apply N.leb_le in Hc; repeat match goal with
          H : (_ <=? _)%N = true |- _ => apply N.leb_le in H end; lia.
    + intros [->|[[Heq _]|[_ Hcap]]]; [|done|tauto].
      exfalso.
      destruct Hc as [Hc|Hc]; repeat (apply andb_true_iff in Hc as [Hc ?]);
        apply N.leb_le in Hc; repeat match goal with
          H : (_ <=? _)%N = true |- _ => apply N.leb_le in H end; lia.
  - apply orb_false_iff in Hc as [Hc _].
    split; [by left|]. intros [->|[[_ Hcap]|[_ Hcap]]]; [done| |tauto].
    exfalso. apply andb_false_iff in Hc.
    destruct Hc as [Hc|Hc]; apply N.leb_gt in Hc; lia.
Qed.

Lemma lower_plain (t suffix : string) :
  plain suffix = true → PyStr.lower t = suffix ↔ same_text t suffix.
Proof.
  revert suffix. induction t as [|x t IH]; intros [|y suffix]; cbn.
  - done.
  - intros _. split; [done|tauto].
  - intros _. split; [done|tauto].
  - intros [[Hy Hup]%andb_true_iff Hrest]%andb_true_iff.
    apply N.ltb_lt in Hy. apply negb_true_iff, andb_false_iff in Hup.
    rewrite <- (IH suffix Hrest), <- (lower_char_plain x y Hy).
    + split; [by intros [= -> ->]|by intros [-> ->]].
    + intros [H1 H2]. destruct Hup as [Hup|Hup]; apply N.leb_gt in Hup; lia.
Qed.

(** "Ends in, whatever the case" is what the lower-cased name decides. *)
Lemma endswith_any_case (s suffix : string) :
  plain suffix = true →
  PyStr.endswith (PyStr.lower s) suffix = true ↔ ends_any_case s suffix.
Proof.
  intros Hp. rewrite endswith_lower. unfold ends_ci, ends_any_case.
  split; intros (pre & t & Hs & Ht); exists pre, t; (split; [done|]);
    by apply (lower_plain t suffix Hp).
Qed.

(** [isspace] against the table of white space. *)
Lemma isspace_table (c : ascii) :
  PyStr.isspace c = bool_decide (PyStr.code c ∈ white_space_codes).
Proof. destruct c as [[] [] [] [] [] [] [] []]; vm_compute; reflexivity. Qed.

(** [str] of a number reads back as the number. *)
Lemma py_str_int (z : Z) :
  Z.of_int <$> NilZero.int_of_string (py_str (LInt z)) = Some z.
Proof.
  cbn [py_str]. rewrite NilZero.isi.
  - cbn. by rewrite DecimalZ.of_to.
  - destruct z; cbn; [done| |done]. intros [= H].
    by apply DecimalPos.Unsigned.to_uint_nonnil in H.
  - destruct z; cbn; [done..|]. intros [= H].
    by apply DecimalPos.Unsigned.to_uint_nonnil in H.
Qed.

Lemma lstrip_spec (s : string) :
  ∃ pre, s = pre +:+ PyStr.lstrip s ∧ PyStr.all_space pre = true
         ∧ ∀ c, PyStr.head (PyStr.lstrip s) = Some c → PyStr.isspace c = false.
Proof.
  induction s as [|x s (pre & Hs & Hpre & Hhd)]; simpl.
  - exists "". done.
  - destruct (PyStr.isspace x) eqn:Hx.
    + exists (String x pre). rewrite app_cons, <- Hs. simpl. by rewrite Hx, Hpre.
    + exists "". repeat split. simpl. by intros c [= <-].
Qed.

Lemma rstrip_spec (s : string) :
  ∃ suf, s = PyStr.rstrip s +:+ suf ∧ PyStr.all_space suf = true
         ∧ ∀ c, PyStr.last (PyStr.rstrip s) = Some c → PyStr.isspace c = false.
Proof.
  induction s as [|x s (suf & Hs & Hsuf & Hlast)]; simpl.
  - exists "". done.
  - destruct (PyStr.rstrip s) as [|y r] eqn:Hr.
    + destruct (PyStr.isspace x) eqn:Hx.
      * exists (String x suf). split; [by rewrite Hs at 1|]. simpl.
        by rewrite Hx, Hsuf.
      * exists suf. split; [by rewrite Hs at 1|]. split; [done|].
        simpl. by intros c [= <-].
    + exists suf. split; [by rewrite Hs at 1|]. split; [done|]. exact Hlast.
Qed.

Lemma rstrip_head (s : string) (c : ascii) :
  PyStr.head (PyStr.rstrip s) = Some c → PyStr.head s = Some c.
Proof.
  destruct s as [|x s]; simpl; [done|].
  destruct (PyStr.rstrip s); [destruct (PyStr.isspace x)|]; simpl; done.
Qed.

(** What [strip] returns: the string between a white-space prefix and a
    white-space suffix, itself with no white space at either end. *)
Lemma strip_spec (s : string) :
  ∃ pre suf, s = pre +:+ PyStr.strip s +:+ suf
    ∧ PyStr.all_space pre = true ∧ PyStr.all_space suf = true
    ∧ (∀ c, PyStr.head (PyStr.strip s) = Some c → PyStr.isspace c = false)
    ∧ (∀ c, PyStr.last (PyStr.strip s) = Some c → PyStr.isspace c = false).
Proof.
  destruct (lstrip_spec s) as (pre & Hs & Hpre & Hhd).
  destruct (rstrip_spec (PyStr.lstrip s)) as (suf & Ht & Hsuf & Hlast).
  exists pre, suf. unfold PyStr.strip. repeat split; try done.
  - by rewrite <- Ht.
  - intros c Hc. apply Hhd. by apply rstrip_head.
Qed.

Lemma last_app (p q : string) :
  q ≠ "" → PyStr.last (p +:+ q) = PyStr.last q.
Proof.
  intros Hq. induction p as [|x p IH]; [done|].
  rewrite app_cons. simpl. rewrite IH.
  destruct (p +:+ q) eqn:Hpq; [|done].
  destruct p; [|done]. by destruct q.
Qed.

(** Two suffixes with different last characters exclude each other. *)
Lemma endswith_excl (s a b : string) :
  a ≠ "" → b ≠ "" → PyStr.last a ≠ PyStr.last b →
  PyStr.endswith s a = true → PyStr.endswith s b = false.
Proof.
  intros Ha Hb Hne [p Hp]%endswith_true.
  apply not_true_is_false. intros [q Hq]%endswith_true.
  apply Hne. rewrite <- (last_app p a Ha), <- (last_app q b Hb).
  by rewrite <- Hp, <- Hq.
Qed.

(** ** The schema comparator *)

Lemma filter_not_in_set (l xs : list string) :
  filter (λ c, c ∉ (list_to_set l : gset string)) xs = filter (λ c, c ∉ l) xs.
Proof. apply list_filter_iff. intros c. by rewrite elem_of_list_to_set. Qed.

Lemma list_to_set_eq (l k : list string) :
  (list_to_set l : gset string) = list_to_set k ↔ ∀ c, c ∈ l ↔ c ∈ k.
Proof.
  rewrite set_eq. apply forall_proper. intros c.
  by rewrite !elem_of_list_to_set.
Qed.

Lemma filter_nil_iff (P : string → Prop) `{!∀ x, Decision (P x)}
    (l : list string) :
  filter P l = [] ↔ ∀ c, c ∈ l → ¬ P c.
Proof.
  split.
  - intros Hnil c Hc HP.
    assert (c ∈ filter P l) as Hin by (by apply list_elem_of_filter).
    rewrite Hnil in Hin. by apply not_elem_of_nil in Hin.
  - intros Hall. induction l as [|x l IH]; [done|].
    rewrite filter_cons. destruct (decide (P x)) as [HP|_].
    + exfalso. apply (Hall x); [left|done].
    + apply IH. intros c Hc. apply Hall. by right.
Qed.

(** C2. [diff_cols] returns: as [missing] the labels of [expected] that do
    not occur in [incoming], in the order of [expected]; as [extra] the
    labels of [incoming] that do not occur in [expected], in the order of
    [incoming]; and the order flag is set exactly when the two sequences
    have the same labels but differ as sequences. So a set flag comes with
    empty [missing] and [extra]. *)
Theorem diff_cols_spec (expected incoming : list string) :
  let '(missing, extra, order_issue) := diff_cols expected incoming in
  missing = filter (λ c, c ∉ incoming) expected
  ∧ extra = filter (λ c, c ∉ expected) incoming
  ∧ (order_issue = true ↔
       (∀ c, c ∈ expected ↔ c ∈ incoming) ∧ expected ≠ incoming)
  ∧ (order_issue = true → missing = [] ∧ extra = [])
  ∧ (missing ≠ [] ∨ extra ≠ [] → order_issue = false).
Proof.
  unfold diff_cols. rewrite !filter_not_in_set.
  assert (bool_decide ((list_to_set expected : gset string) = list_to_set incoming)
          && negb (bool_decide (expected = incoming)) = true
          ↔ (∀ c, c ∈ expected ↔ c ∈ incoming) ∧ expected ≠ incoming) as Hflag.
  { rewrite andb_true_iff, negb_true_iff, bool_decide_eq_true,
      bool_decide_eq_false. by rewrite list_to_set_eq. }
  assert (bool_decide ((list_to_set expected : gset string) = list_to_set incoming)
          && negb (bool_decide (expected = incoming)) = true →
          filter (λ c, c ∉ incoming) expected = []
          ∧ filter (λ c, c ∉ expected) incoming = []) as Hempty.
  { intros [Hset _]%Hflag. split; apply filter_nil_iff; intros c Hc Hn;
      apply Hn; by apply Hset. }
  split; [done|]. split; [done|]. split; [exact Hflag|]. split; [exact Hempty|].
  intros Hne. apply not_true_is_false. intros Ht.
  destruct (Hempty Ht) as [Hm He]. by destruct Hne.
Qed.

(** C3. [cols_match] answers [true] exactly when the two sequences are
    equal element by element (same length, same label at every position);
    and a sequence compared with itself matches, with nothing missing,
    nothing extra and no order issue. *)
Theorem cols_match_spec (expected incoming : list string) :
  (cols_match expected incoming = true ↔ expected = incoming)
  ∧ (cols_match expected incoming = true ↔
       length expected = length incoming
       ∧ ∀ i : nat, expected !! i = incoming !! i)
  ∧ cols_match expected expected = true
  ∧ diff_cols expected expected = ([], [], false).
Proof.
  unfold cols_match. rewrite !bool_decide_eq_true.
  split; [done|]. split; [|split; [done|]].
  - split; [by intros ->|]. intros [_ Hi]. by apply list_eq.
  - unfold diff_cols. rewrite !filter_not_in_set.
    assert (filter (λ c, c ∉ expected) expected = []) as ->.
    { apply filter_nil_iff. intros c Hc Hn. done. }
    by rewrite (bool_decide_true (expected = expected)), andb_false_r.
Qed.

(** ** Column normalisation *)

(** C8. [normalize_columns] keeps the length and the order: at every
    position it holds the string form of the label there, stripped. The
    string form of a text is the text, that of a number is a numeral that
    reads back as the number. The stripped text is the original between a
    white-space prefix and a white-space suffix and has white space at
    neither end, white space being the characters of the table. Labels
    that become equal are all kept, each at its place. *)
Theorem normalize_columns_spec (cols : list label) :
  length (normalize_columns cols) = length cols
  ∧ (∀ i : nat, normalize_columns cols !! i
               = (λ c, PyStr.strip (py_str c)) <$> cols !! i)
  ∧ (∀ c : label, ∃ pre suf,
        py_str c = pre +:+ PyStr.strip (py_str c) +:+ suf
        ∧ PyStr.all_space pre = true ∧ PyStr.all_space suf = true
        ∧ (∀ x, PyStr.head (PyStr.strip (py_str c)) = Some x
                → PyStr.isspace x = false)
        ∧ (∀ x, PyStr.last (PyStr.strip (py_str c)) = Some x
                → PyStr.isspace x = false))
  ∧ (∀ (i j : nat) (c d : label),
        cols !! i = Some c → cols !! j = Some d →
        PyStr.strip (py_str c) = PyStr.strip (py_str d) →
        normalize_columns cols !! i = Some (PyStr.strip (py_str c))
        ∧ normalize_columns cols !! j = Some (PyStr.strip (py_str c)))
  ∧ (∀ s : string, py_str (LStr s) = s)
  ∧ (∀ z : Z, Z.of_int <$> NilZero.int_of_string (py_str (LInt z)) = Some z)
  ∧ (∀ x : ascii,
        PyStr.isspace x = true ↔ PyStr.code x ∈ white_space_codes).
Proof.
  unfold normalize_columns.
  split; [apply length_fmap|]. split; [intros i; apply list_lookup_fmap|].
  split; [intros c; apply strip_spec|].
  split.
  { intros i j c d Hi Hj Heq. rewrite !list_lookup_fmap, Hi, Hj. simpl.
    by rewrite Heq. }
  split; [done|]. split; [apply py_str_int|].
  intros x. by rewrite isspace_table, bool_decide_eq_true.
Qed.

(** ** Frames *)

Lemma fill_where_length key v cols row :
  length (fill_where key v cols row) = length row.
Proof.
  revert row. induction cols as [|c cols IH]; intros [|x row]; simpl; auto.
Qed.

Lemma wf_setitem df key v : wf df → wf (setitem df key v).
Proof.
  unfold wf, setitem. intros Hwf. case_decide; simpl.
  - apply Forall_fmap. eapply Forall_impl; [exact Hwf|].
    intros r Hr. simpl. by rewrite fill_where_length.
  - apply Forall_fmap. eapply Forall_impl; [exact Hwf|].
    intros r Hr. simpl. rewrite !length_app, Hr. done.
Qed.

Lemma cell_at_absent cols row c : c ∉ cols → cell_at cols row c = NaN.
Proof.
  revert row. induction cols as [|k cols IH]; intros [|x row] Hc; simpl; auto.
  apply not_elem_of_cons in Hc as [Hne Hc].
  rewrite decide_False by done. by apply IH.
Qed.

(** On a frame without repeated labels, laying a row out for the labels it
    already has changes nothing. *)
Lemma reindex_same cols row :
  NoDup cols → length row = length cols → reindex cols cols row = row.
Proof.
  unfold reindex. revert row.
  induction cols as [|k cols IH]; intros [|x row] Hnd Hlen; simplify_eq/=;
    [done|].
  apply NoDup_cons in Hnd as [Hk Hnd].
  rewrite decide_True by done. f_equal.
  transitivity (cell_at cols row <$> cols); [|by apply IH].
  apply Forall_fmap_ext_1, Forall_forall. intros c Hc. simpl.
  rewrite decide_False; [done|]. by intros ->.
Qed.

(** Laid out for more labels, a row keeps its cells and gets [NaN] under
    every new label. *)
Lemma reindex_extend cols extra row :
  NoDup cols → length row = length cols →
  (∀ c, c ∈ extra → c ∉ cols) →
  reindex cols (cols ++ extra) row = row ++ replicate (length extra) NaN.
Proof.
  intros Hnd Hlen Hnew. unfold reindex. rewrite fmap_app. f_equal.
  - by apply reindex_same.
  - apply const_fmap. intros i c Hc. apply cell_at_absent, Hnew.
    by eapply list_elem_of_lookup_2.
Qed.

Lemma float_of_int_exact z : Z.abs z < 2 ^ 53 → float_of_int z = z.
Proof.
  intros Hz. unfold float_of_int. by rewrite (proj2 (Z.ltb_lt _ _) Hz).
Qed.

Lemma length_upcast mine other row :
  length (upcast mine other row) = length row.
Proof. apply length_imap. Qed.

Lemma length_stack ra rb :
  length (stack ra rb) = (length ra + length rb)%nat.
Proof. unfold stack. by rewrite length_app, !length_fmap. Qed.

Lemma upcast_id mine other row :
  (∀ j, ¬ (dtype_of (column_at j mine) = Int64
           ∧ dtype_of (column_at j other) = Float64)) →
  upcast mine other row = row.
Proof.
  intros Hok. apply list_eq. intros j. unfold upcast.
  rewrite list_lookup_imap. destruct (row !! j) as [x|]; [|done]. cbn.
  specialize (Hok j).
  destruct (dtype_of (column_at j mine)); try done.
  destruct (dtype_of (column_at j other)); try done. by destruct Hok.
Qed.

Lemma stack_compatible ra rb : compatible ra rb → stack ra rb = ra ++ rb.
Proof.
  intros Hc. unfold stack. f_equal.
  - rewrite <- (list_fmap_id ra) at 3. apply list_fmap_ext.
    intros i row _. apply upcast_id. intros j. apply Hc.
  - rewrite <- (list_fmap_id rb) at 3. apply list_fmap_ext.
    intros i row _. apply upcast_id. intros j. apply Hc.
Qed.

(** A frame stacked on itself: a column has one dtype, so no cell is
    converted. *)
Lemma stack_same r : stack r r = r ++ r.
Proof.
  apply stack_compatible. intros j.
  split; intros [H1 H2]; congruence.
Qed.

Lemma upcast_same_value mine other row :
  Forall2 same_value row (upcast mine other row).
Proof.
  apply Forall2_same_length_lookup. split; [by rewrite length_upcast|].
  intros j x y Hx. unfold upcast. rewrite list_lookup_imap, Hx. cbn.
  intros [= <-].
  destruct (dtype_of (column_at j mine)); try (by left).
  destruct (dtype_of (column_at j other)); try (by left).
  destruct x; cbn; try (by left). right. eauto.
Qed.


Lemma stack_width n ra rb :
  Forall (λ r : list scalar, length r = n) ra →
  Forall (λ r : list scalar, length r = n) rb →
  Forall (λ r : list scalar, length r = n) (stack ra rb).
Proof.
  intros Ha Hb. unfold stack.
  apply Forall_app; split; apply Forall_fmap;
    (eapply Forall_impl; [eassumption|]); intros r Hr; cbn;
    by rewrite length_upcast.
Qed.

Lemma add_source_columns {content} ctl (f : UploadedFile content) df :
  columns (add_source content ctl f df) = source_columns ctl (columns df).
Proof.
  unfold add_source, source_columns, setitem.
  destruct (add_source_col ctl); [|done]. by case_decide.
Qed.


(** When a column has the configured name already, its cells are replaced
    and the frame keeps its labels. *)
Lemma add_source_collision {content} ctl (f : UploadedFile content) df :
  add_source_col ctl = true → source_col_name ctl ∈ columns df →
  add_source content ctl f df
  = {| columns := columns df;
       rows := fill_where (source_col_name ctl) (SStr (name f)) (columns df)
               <$> rows df |}.
Proof.
  unfold add_source, setitem. intros -> Hin. by rewrite decide_True.
Qed.

Lemma provenance_length ctl filename df :
  length (rows (provenance ctl filename df)) = length (rows df).
Proof.
  unfold provenance. destruct (add_source_col ctl); cbn; by rewrite ?length_fmap.
Qed.


Lemma wf_add_source {content} ctl (f : UploadedFile content) df :
  wf df → wf (add_source content ctl f df).
Proof.
  unfold add_source. destruct (add_source_col ctl); [|done]. apply wf_setitem.
Qed.

Lemma wf_concat a b df_all :
  wf a → wf b → concat (Some a) b = inr df_all → wf df_all.
Proof.
  unfold concat, wf. intros Ha Hb.
  case_decide as Heq; [|destruct (_ || _); [done|]]; intros [= <-]; simpl.
  - apply stack_width; [done|]. by rewrite Heq.
  - apply stack_width; apply Forall_fmap, Forall_true; intros r;
      simpl; unfold reindex; by rewrite length_fmap.
Qed.

(** ** The upload block *)

Section ScriptFacts.

Context {content : Type}.
Variable read_csv read_excel : UploadedFile content → exception + DataFrame label.

Abbreviation read := (read_any_table content read_csv read_excel).
Abbreviation run := (upload content read_csv read_excel).
Abbreviation run_all := (uploads content read_csv read_excel).
Abbreviation rejected := (mismatching content read_csv read_excel).
Abbreviation tag := (add_source content).

(** An exception raised by the reader is reported and nothing else
    happens. *)
Lemma upload_read_error ctl st f e :
  read f = inl e →
  run ctl st f = (st, Failed ("Failed to read file: " +:+ exc_str e)).
Proof. intros H. unfold upload. by rewrite H. Qed.

(** The rejection branch. *)
Lemma upload_mismatch ctl st f df expected :
  expected_cols st = Some expected →
  read f = inr df →
  normalize_columns (columns df) ≠ expected →
  ∃ missing extra order_issue,
    diff_cols expected (normalize_columns (columns df))
      = (missing, extra, order_issue)
    ∧ run ctl st f
      = (st, Mismatch missing extra order_issue expected
               (normalize_columns (columns df))).
Proof.
  intros Hexp Hread Hne. unfold upload. rewrite Hread, Hexp.
  cbn [set_columns columns]. unfold cols_match.
  rewrite bool_decide_false by done.
  destruct (diff_cols expected (normalize_columns (columns df)))
    as [[missing extra] order_issue].
  by exists missing, extra, order_issue.
Qed.

Lemma upload_mismatching ctl st f expected :
  expected_cols st = Some expected →
  rejected expected f →
  (run ctl st f).1 = st.
Proof.
  intros Hexp (df & Hread & Hne).
  destruct (upload_mismatch ctl st f df expected Hexp Hread Hne)
    as (m & e & o & _ & ->). done.
Qed.

Lemma uploads_mismatching st runs expected :
  expected_cols st = Some expected →
  Forall (λ run, rejected expected run.2) runs →
  run_all st runs = st.
Proof.
  intros Hexp Hall. induction Hall as [|[ctl f] runs Hf _ IH]; [done|].
  unfold uploads in *. simpl.
  by rewrite (upload_mismatching ctl st f expected Hexp Hf).
Qed.

(** C1. A seeded session rejects an upload whose normalized labels are not
    the expected ones: the mismatch is reported with the result of
    [diff_cols], and the compiled table and the expected labels stay as
    they were; after any sequence of such uploads they are still the same. *)
Theorem rejection_atomic ctl st f df expected :
  expected_cols st = Some expected →
  read f = inr df →
  normalize_columns (columns df) ≠ expected →
  (∃ missing extra order_issue,
     diff_cols expected (normalize_columns (columns df))
       = (missing, extra, order_issue)
     ∧ (run ctl st f).2
       = Mismatch missing extra order_issue expected
           (normalize_columns (columns df)))
  ∧ compiled_df (run ctl st f).1 = compiled_df st
  ∧ expected_cols (run ctl st f).1 = expected_cols st
  ∧ ∀ runs, Forall (λ r, rejected expected r.2) runs →
      compiled_df (run_all st runs) = compiled_df st
      ∧ expected_cols (run_all st runs) = expected_cols st.
Proof.
  intros Hexp Hread Hne.
  destruct (upload_mismatch ctl st f df expected Hexp Hread Hne)
    as (m & e & o & Hdiff & Hrun).
  rewrite Hrun. split; [by exists m, e, o|]. split; [done|]. split; [done|].
  intros runs Hall. by rewrite (uploads_mismatching st runs expected).
Qed.

(** C10. A rejected upload leaves the list of accepted file names as it
    was, and so does any sequence of rejected uploads. *)
Theorem rejection_keeps_uploaded_files ctl st f df expected :
  expected_cols st = Some expected →
  read f = inr df →
  normalize_columns (columns df) ≠ expected →
  uploaded_files (run ctl st f).1 = uploaded_files st
  ∧ ∀ runs, Forall (λ r, rejected expected r.2) runs →
      uploaded_files (run_all st runs) = uploaded_files st.
Proof.
  intros Hexp Hread Hne. split.
  - rewrite (upload_mismatching ctl st f expected Hexp); [done|].
    by exists df.
  - intros runs Hall. by rewrite (uploads_mismatching st runs expected).
Qed.

(** C6. [read_any_table] looks only at the end of the file name, letters
    compared whatever their case: a name ending in .csv goes to the CSV
    reader, a name ending in .xlsx or .xls to the Excel reader, and the
    table returned is the one that reader decodes; any other name raises
    the unsupported-type error, which the upload block reports without
    changing the session state. *)
Theorem read_any_table_dispatch f :
  (ends_any_case (name f) ".csv" → read f = read_csv f)
  ∧ (ends_any_case (name f) ".xlsx" ∨ ends_any_case (name f) ".xls" →
       read f = read_excel f)
  ∧ (¬ ends_any_case (name f) ".csv" → ¬ ends_any_case (name f) ".xlsx" →
     ¬ ends_any_case (name f) ".xls" →
       read f = inl unsupported
       ∧ ∀ ctl st, run ctl st f
           = (st, Failed ("Failed to read file: " +:+ exc_str unsupported))).
Proof.
  unfold upload, read_any_table.
  rewrite <- !endswith_any_case by reflexivity.
  set (n := PyStr.lower (name f)).
  split; [by intros ->|]. split.
  - intros Hx.
    assert (PyStr.endswith n ".csv" = false) as ->.
    { destruct Hx as [Hx|Hx]; revert Hx; by apply endswith_excl. }
    destruct Hx as [-> | ->]; [done|]. by rewrite orb_true_r.
  - intros Hc%not_true_is_false Hx%not_true_is_false Hl%not_true_is_false.
    by rewrite Hc, Hx, Hl.
Qed.

(** C7. The reset button puts the session back into its initial state,
    whatever it was; pressing it twice is pressing it once; and the next
    upload is handled as the first upload of a session: a readable file
    becomes the new expected labels. *)
Theorem reset_spec st :
  reset st = initial_state
  ∧ expected_cols (reset st) = None
  ∧ compiled_df (reset st) = None
  ∧ uploaded_files (reset st) = []
  ∧ reset (reset st) = reset st
  ∧ ∀ ctl f,
      run ctl (reset st) f = run ctl initial_state f
      ∧ ∀ df, read f = inr df →
          expected_cols (run ctl (reset st) f).1
            = Some (normalize_columns (columns df))
          ∧ uploaded_files (run ctl (reset st) f).1 = [name f]
          ∧ (run ctl (reset st) f).2
            = FirstLoaded (length (columns df)) (length (rows df)).
Proof.
  do 5 (split; [done|]). intros ctl f. split; [done|].
  intros df Hread. unfold upload. rewrite Hread. cbn.
  split; [done|]. split; [done|]. f_equal.
  - unfold normalize_columns. apply length_fmap.
  - unfold add_source. destruct (add_source_col ctl); [|done].
    unfold setitem. case_decide; cbn; by rewrite ?length_fmap.
Qed.

(** Without a file in the uploader the block does nothing. *)
Lemma upload_block_none ctl st :
  upload_block content read_csv read_excel ctl st None = (st, None).
Proof. done. Qed.


(** The accepted branch, whatever the provenance controls do. *)
Lemma upload_match ctl st f df expected :
  expected_cols st = Some expected →
  read f = inr df →
  normalize_columns (columns df) = expected →
  run ctl st f
  = let df_new := tag ctl f {| columns := expected; rows := rows df |} in
    match concat (compiled_df st) df_new with
    | inl e => (st, Failed ("Failed to read file: " +:+ exc_str e))
    | inr df_all =>
        ({| expected_cols := Some expected;
            compiled_df := Some df_all;
            uploaded_files := uploaded_files st ++ [name f] |},
         Appended (length (rows df_new)) (name f))
    end.
Proof.
  intros Hexp Hread Hcols. unfold upload. rewrite Hread, Hexp.
  cbn [set_columns columns]. unfold cols_match.
  rewrite bool_decide_true by done. rewrite Hcols.
  by destruct (concat _ _).
Qed.


(** With the controls left alone, the compiled table always has the labels
    that [add_source] gives to a matching upload, so the first alternative
    of [append_spec] holds in every state a session reaches. *)
Lemma upload_layout ctl st f :
  layout_ok ctl st → layout_ok ctl (run ctl st f).1.
Proof.
  intros Hst. destruct (read f) as [e|df] eqn:Hread.
  { by rewrite (upload_read_error ctl st f e). }
  destruct (expected_cols st) as [expected|] eqn:Hexp.
  - destruct (decide (normalize_columns (columns df) = expected)) as [Hm|Hm].
    + rewrite (upload_match ctl st f df expected Hexp Hread Hm). cbv zeta.
      unfold layout_ok in *. rewrite Hexp in Hst.
      destruct (compiled_df st) as [compiled|]; [|done].
      unfold concat. rewrite add_source_columns. cbn [columns].
      rewrite decide_True by done. done.
    + rewrite (upload_mismatching ctl st f expected Hexp); [done|].
      by exists df.
  - unfold upload. rewrite Hread, Hexp. unfold layout_ok. cbn.
    by rewrite add_source_columns.
Qed.

(** So, with the controls left alone, a matching upload is always stacked
    under the compiled rows, whether or not labels repeat or collide with
    the configured name. *)
Lemma append_same_layout ctl st f df expected compiled :
  layout_ok ctl st →
  expected_cols st = Some expected →
  compiled_df st = Some compiled →
  read f = inr df →
  normalize_columns (columns df) = expected →
  run ctl st f
  = ({| expected_cols := Some expected;
        compiled_df :=
          Some {| columns := columns compiled;
                  rows := stack (rows compiled)
                            (rows (tag ctl f {| columns := expected;
                                                rows := rows df |})) |};
        uploaded_files := uploaded_files st ++ [name f] |},
     Appended (length (rows (tag ctl f {| columns := expected;
                                          rows := rows df |})))
              (name f)).
Proof.
  intros Hst Hexp Hcomp Hread Hcols.
  rewrite (upload_match ctl st f df expected Hexp Hread Hcols). cbv zeta.
  unfold layout_ok in Hst. rewrite Hexp, Hcomp in Hst. rewrite Hcomp.
  unfold concat. rewrite add_source_columns. cbn [columns].
  by rewrite decide_True.
Qed.

(** The frame invariant is kept by the upload block as long as the readers
    return well-formed frames. *)
Lemma upload_wf ctl st f :
  (∀ df, read f = inr df → wf df) →
  from_option wf True (compiled_df st) →
  from_option wf True (compiled_df (run ctl st f).1).
Proof.
  intros Hread Hst. unfold upload.
  destruct (read f) as [e|df]; [done|].
  assert (wf (tag ctl f (set_columns df (normalize_columns (columns df)))))
    as Hnew.
  { apply wf_add_source. unfold wf, set_columns, normalize_columns. cbn.
    rewrite length_fmap. by apply Hread. }
  destruct (expected_cols st) as [expected|]; [|done].
  cbn [set_columns columns] in *. destruct (cols_match _ _).
  - destruct (compiled_df st) as [compiled|] eqn:Hcomp; [|done].
    destruct (concat _ _) as [e|df_all] eqn:Hcat; cbn; [by rewrite Hcomp|].
    eapply wf_concat; [exact Hst | exact Hnew | exact Hcat].
  - by destruct (diff_cols _ _) as [[? ?] ?].
Qed.

Lemma fixed_controls_layout ctl files :
  layout_ok ctl (run_all initial_state (pair ctl <$> files)).
Proof.
  unfold uploads. generalize initial_state (I : layout_ok ctl initial_state).
  induction files as [|f files IH]; intros st Hst; [done|].
  cbn [fmap list_fmap foldl fst snd]. apply IH. by apply upload_layout.
Qed.

End ScriptFacts.

(** ** Export and download *)

Section Exporter.

Variable save_workbook : list Sheet → exception + list Byte.byte.

(** C9. [to_excel_bytes] writes one workbook with one sheet, named
    "compiled", whose first row is the column labels in order and whose
    next rows are the rows of the table in order; and the download button
    keeps a file name that ends in .xlsx, in any letter case, and appends
    .xlsx to any other. *)
Theorem export_spec (df : DataFrame string) (filename : string) :
  (∃ sheet,
     to_excel_bytes save_workbook df = save_workbook [sheet]
     ∧ sheet_name sheet = "compiled"
     ∧ sheet_rows sheet !! 0%nat = Some (SStr <$> columns df)
     ∧ ∀ i : nat, sheet_rows sheet !! S i = rows df !! i)
  ∧ (ends_ci filename ".xlsx" → download_file_name filename = filename)
  ∧ (¬ ends_ci filename ".xlsx" →
       download_file_name filename = filename +:+ ".xlsx")
  ∧ (download_file_name filename = filename +:+ ".xlsx"
     ↔ ¬ ends_ci filename ".xlsx").
Proof.
  split; [by eexists|].
  unfold download_file_name. rewrite <- endswith_lower.
  destruct (PyStr.endswith (PyStr.lower filename) ".xlsx").
  - split; [done|]. split; [done|]. split; [|done].
    intros Heq. exfalso.
    apply (f_equal String.length) in Heq. rewrite length_app_str in Heq.
    simpl in Heq. lia.
  - split; [done|]. split; [done|]. split; [by intros _ ?|done].
Qed.

End Exporter.

(** ** The statements on the sample sessions *)

(** Scenarios 1 to 5 of the specification. *)
Example scenario_seed :
  Sample.run Sample.tagging initial_state Sample.f1
  = ({| expected_cols := Some ["id"; "name"];
        compiled_df :=
          Some {| columns := ["id"; "name"; "source_file"];
                  rows := [[SInt 1; SStr "a"; SStr "f1.csv"];
                           [SInt 2; SStr "b"; SStr "f1.csv"]] |};
        uploaded_files := ["f1.csv"] |},
     FirstLoaded 2 2).
Proof. reflexivity. Qed.

Example scenario_reordered :
  Sample.run Sample.tagging Sample.seeded Sample.reordered
  = (Sample.seeded, Mismatch [] [] true ["id"; "name"] ["name"; "id"]).
Proof. vm_compute. reflexivity. Qed.

Example scenario_append :
  Sample.run Sample.tagging Sample.seeded Sample.f2
  = ({| expected_cols := Some ["id"; "name"];
        compiled_df :=
          Some {| columns := ["id"; "name"; "source_file"];
                  rows := [[SInt 1; SStr "a"; SStr "f1.csv"];
                           [SInt 2; SStr "b"; SStr "f1.csv"];
                           [SInt 3; SStr "c"; SStr "f2.csv"]] |};
        uploaded_files := ["f1.csv"; "f2.csv"] |},
     Appended 1 "f2.csv").
Proof. vm_compute. reflexivity. Qed.

Example scenario_extra :
  Sample.run Sample.tagging Sample.seeded Sample.wider
  = (Sample.seeded,
     Mismatch [] ["extra"] false ["id"; "name"] ["id"; "name"; "extra"]).
Proof. vm_compute. reflexivity. Qed.

(** A compiled table with a repeated label: the metrics are shown, then
    the page stops at the preview. *)
Example scenario_repeated_label_page :
  display Sample.writer
    (Sample.run Sample.tagging initial_state Sample.twins).1 "out"
  = Some {| files_added := 1; total_rows := 1; total_columns := 3;
            uploaded_line := "twins.csv";
            preview := None; download := None |}.
Proof. vm_compute. reflexivity. Qed.

(** The provenance option switched on after a first upload without it:
    the new column is added and the rows compiled before hold no value
    there. *)
Example scenario_controls_changed :
  Sample.run Sample.tagging
    (Sample.run Sample.plain initial_state Sample.f1).1 Sample.f2
  = ({| expected_cols := Some ["id"; "name"];
        compiled_df :=
          Some {| columns := ["id"; "name"; "source_file"];
                  rows := [[SInt 1; SStr "a"; NaN];
                           [SInt 2; SStr "b"; NaN];
                           [SInt 3; SStr "c"; SStr "f2.csv"]] |};
        uploaded_files := ["f1.csv"; "f2.csv"] |},
     Appended 1 "f2.csv").
Proof. vm_compute. reflexivity. Qed.

Example scenario_reset :
  reset Sample.seeded = initial_state
  ∧ Sample.run Sample.tagging (reset Sample.seeded) Sample.f2
    = ({| expected_cols := Some ["id"; "name"];
          compiled_df :=
            Some {| columns := ["id"; "name"; "source_file"];
                    rows := [[SInt 3; SStr "c"; SStr "f2.csv"]] |};
          uploaded_files := ["f2.csv"] |},
       FirstLoaded 2 1).
Proof. split; vm_compute; reflexivity. Qed.

Lemma rejection_atomic_witness :
  compiled_df (Sample.run Sample.tagging Sample.seeded Sample.reordered).1
    = compiled_df Sample.seeded
  ∧ expected_cols (Sample.run Sample.tagging Sample.seeded Sample.reordered).1
    = expected_cols Sample.seeded.
Proof.
  assert (normalize_columns (columns (data Sample.reordered)) ≠ ["id"; "name"])
    as Hne by (vm_compute; discriminate).
  destruct (rejection_atomic Sample.reader Sample.reader Sample.tagging
              Sample.seeded Sample.reordered (data Sample.reordered)
              ["id"; "name"] eq_refl eq_refl Hne) as (_ & Hc & He & _).
  split; [exact Hc | exact He].
Defined.

Lemma rejection_keeps_uploaded_files_witness :
  uploaded_files (Sample.run Sample.tagging Sample.seeded Sample.wider).1
    = uploaded_files Sample.seeded.
Proof.
  assert (normalize_columns (columns (data Sample.wider)) ≠ ["id"; "name"])
    as Hne by (vm_compute; discriminate).
  exact (proj1 (rejection_keeps_uploaded_files Sample.reader Sample.reader
                  Sample.tagging Sample.seeded Sample.wider (data Sample.wider)
                  ["id"; "name"] eq_refl eq_refl Hne)).
Defined.





Lemma read_any_table_dispatch_witness :
  read_any_table _ Sample.reader Sample.refusing Sample.shouting
    = inr (data Sample.f1)
  ∧ read_any_table _ Sample.reader Sample.refusing Sample.mixed
    = inl (ReadError "File is not a zip file")
  ∧ read_any_table _ Sample.refusing Sample.reader Sample.legacy
    = inr (data Sample.f1)
  ∧ Sample.run Sample.tagging Sample.seeded Sample.notes
    = (Sample.seeded,
       Failed ("Failed to read file: " +:+ exc_str unsupported)).
Proof.
  assert (∀ s suffix, plain suffix = true →
            PyStr.endswith (PyStr.lower s) suffix = false →
            ¬ ends_any_case s suffix) as Hno.
  { intros s suffix Hp Hf Hci%endswith_any_case; congruence. }
  split; [|split; [|split]].
  - apply (proj1 (read_any_table_dispatch Sample.reader Sample.refusing
                    Sample.shouting)).
    exists "DATA", ".CSV". split; [reflexivity|].
    cbn. unfold same_letter, PyStr.code. repeat split; first
      [ by left | right; left; vm_compute; split; [done|split; discriminate] ].
  - apply (proj1 (proj2 (read_any_table_dispatch Sample.reader Sample.refusing
                           Sample.mixed))).
    left. exists "Report", ".XlsX". split; [reflexivity|].
    cbn. unfold same_letter, PyStr.code. repeat split; first
      [ by left | right; left; vm_compute; split; [done|split; discriminate] ].
  - apply (proj1 (proj2 (read_any_table_dispatch Sample.refusing Sample.reader
                           Sample.legacy))).
    right. exists "OLD", ".XLS". split; [reflexivity|].
    cbn. unfold same_letter, PyStr.code. repeat split; first
      [ by left | right; left; vm_compute; split; [done|split; discriminate] ].
  - apply (proj2 (proj2 (read_any_table_dispatch Sample.reader Sample.reader
                           Sample.notes))); by apply Hno.
Defined.

Lemma normalize_columns_spec_witness :
  normalize_columns Sample.padded = ["id"; "name"; "2020"; "-7"; "0"; "a"; "a"]
  ∧ Z.of_int <$> NilZero.int_of_string (py_str (LInt (-7))) = Some (-7)
  ∧ PyStr.isspace "009" = true ∧ PyStr.isspace " " = true.
Proof.
  destruct (normalize_columns_spec Sample.padded)
    as (Hlen & Hlook & _ & _ & _ & Hint & Hspace).
  split; [|split; [apply Hint|split; apply Hspace; compute_done]].
  apply list_eq. intros i. rewrite Hlook.
  do 7 (destruct i as [|i]; [reflexivity|]). reflexivity.
Defined.

Lemma reset_spec_witness :
  expected_cols (Sample.run Sample.tagging (reset Sample.seeded) Sample.f2).1
    = Some ["id"; "name"]
  ∧ uploaded_files (Sample.run Sample.tagging (reset Sample.seeded) Sample.f2).1
    = ["f2.csv"].
Proof.
  destruct (reset_spec Sample.reader Sample.reader Sample.seeded)
    as (_ & _ & _ & _ & _ & Hnext).
  destruct (Hnext Sample.tagging Sample.f2) as [_ Hseed].
  destruct (Hseed (data Sample.f2) eq_refl) as (He & Hf & _).
  split; [exact He | exact Hf].
Defined.

Lemma export_spec_witness :
  download_file_name "Totals.XLSX" = "Totals.XLSX"
  ∧ download_file_name "totals.xls" = "totals.xls.xlsx".
Proof.
  destruct (export_spec Sample.writer
              {| columns := ["id"]; rows := [[SInt 1]] |} "Totals.XLSX")
    as (_ & Hkeep & _).
  destruct (export_spec Sample.writer
              {| columns := ["id"]; rows := [[SInt 1]] |} "totals.xls")
    as (_ & _ & Hadd & _).
  split.
  - apply Hkeep. by exists "Totals", ".XLSX".
  - apply Hadd. intros Hci%endswith_lower. vm_compute in Hci. discriminate.
Defined.

(** ** More on the comparator *)

Lemma diff_cols_unfold (expected incoming : list string) :
  diff_cols expected incoming
  = (filter (λ c, c ∉ incoming) expected,
     filter (λ c, c ∉ expected) incoming,
     bool_decide ((list_to_set expected : gset string) = list_to_set incoming)
     && negb (bool_decide (expected = incoming))).
Proof. unfold diff_cols. by rewrite !filter_not_in_set. Qed.

Lemma order_flag_true (expected incoming : list string) :
  bool_decide ((list_to_set expected : gset string) = list_to_set incoming)
  && negb (bool_decide (expected = incoming)) = true
  ↔ (∀ c, c ∈ expected ↔ c ∈ incoming) ∧ expected ≠ incoming.
Proof.
  rewrite andb_true_iff, negb_true_iff, bool_decide_eq_true,
    bool_decide_eq_false. by rewrite list_to_set_eq.
Qed.

Lemma filter_all (P : string → Prop) `{!∀ x, Decision (P x)}
    (l : list string) :
  (∀ c, c ∈ l → P c) → filter P l = l.
Proof.
  intros Hall. induction l as [|x l IH]; [done|].
  rewrite filter_cons, decide_True by (apply Hall; left).
  f_equal. apply IH. intros c Hc. apply Hall. by right.
Qed.

(** X1. The report is empty (nothing missing, nothing extra, no order
    issue) only for equal sequences: whenever [cols_match] refuses an
    upload, [diff_cols] names at least one reason. *)
Theorem diff_cols_silent_iff (expected incoming : list string) :
  diff_cols expected incoming = ([], [], false) ↔ expected = incoming.
Proof.
  rewrite diff_cols_unfold. split.
  - intros [= Hm He Ho].
    destruct (decide (expected = incoming)) as [|Hne]; [done|].
    exfalso. apply not_true_iff_false in Ho. apply Ho, order_flag_true.
    split; [|done]. intros c. split; intros Hc.
    + destruct (decide (c ∈ incoming)) as [|Hn]; [done|].
      by destruct (proj1 (filter_nil_iff _ _) Hm c Hc).
    + destruct (decide (c ∈ expected)) as [|Hn]; [done|].
      by destruct (proj1 (filter_nil_iff _ _) He c Hc).
  - intros <-.
    assert (filter (λ c, c ∉ expected) expected = []) as ->.
    { apply filter_nil_iff. by intros c Hc Hn. }
    by rewrite (bool_decide_true (expected = expected)), andb_false_r.
Qed.

(** X2. Exchanging the two sequences exchanges [missing] and [extra] and
    keeps the order flag. *)
Theorem diff_cols_swap (expected incoming : list string) :
  let '(missing, extra, order_issue) := diff_cols expected incoming in
  diff_cols incoming expected = (extra, missing, order_issue).
Proof.
  rewrite !diff_cols_unfold. do 2 f_equal.
  - apply bool_decide_ext. split; by intros ->.
  - f_equal. apply bool_decide_ext. split; by intros ->.
Qed.

(** X3. When the two sequences share no label, everything expected is
    missing, everything incoming is extra, and no order issue is
    reported. *)
Theorem diff_cols_disjoint (expected incoming : list string) :
  (∀ c, c ∈ expected → c ∉ incoming) →
  diff_cols expected incoming = (expected, incoming, false).
Proof.
  intros Hdis. rewrite diff_cols_unfold.
  rewrite (filter_all _ expected) by done.
  rewrite (filter_all _ incoming) by (intros c Hi He; by apply (Hdis c)).
  do 2 f_equal. apply not_true_is_false. intros [Hset Hne]%order_flag_true.
  destruct expected as [|x expected].
  - destruct incoming as [|y incoming]; [done|].
    assert (y ∈ []) as Hy by (apply Hset; left). by apply not_elem_of_nil in Hy.
  - apply (Hdis x); [left|]. apply Hset. left.
Qed.

(** X4. For sequences without repeated labels, the order issue is
    reported exactly when the upload is a rearrangement of the expected
    labels other than the expected sequence itself. *)
Theorem diff_cols_permutation (expected incoming : list string) :
  NoDup expected → NoDup incoming →
  (diff_cols expected incoming).2 = true
  ↔ expected ≡ₚ incoming ∧ expected ≠ incoming.
Proof.
  intros He Hi. rewrite diff_cols_unfold. cbn [snd].
  rewrite order_flag_true. split; intros [Hset Hne]; (split; [|done]).
  - by apply NoDup_Permutation.
  - intros c. by rewrite Hset.
Qed.

(** ** More on strings *)

Lemma lstrip_id (s : string) :
  (∀ c, PyStr.head s = Some c → PyStr.isspace c = false) → PyStr.lstrip s = s.
Proof. destruct s as [|x s]; [done|]. intros H. simpl. by rewrite (H x). Qed.

Lemma rstrip_id (s : string) :
  (∀ c, PyStr.last s = Some c → PyStr.isspace c = false) → PyStr.rstrip s = s.
Proof.
  induction s as [|x s IH]; [done|]. intros H. simpl.
  destruct s as [|y t].
  - simpl. by rewrite (H x).
  - rewrite IH; [done|]. intros c Hc. by apply H.
Qed.

Lemma lstrip_all_space (s : string) :
  PyStr.all_space s = true → PyStr.lstrip s = "".
Proof.
  induction s as [|x s IH]; [done|]. simpl.
  intros [-> Hs]%andb_true_iff. by apply IH.
Qed.

Lemma strip_strip (s : string) : PyStr.strip (PyStr.strip s) = PyStr.strip s.
Proof.
  destruct (strip_spec s) as (_ & _ & _ & _ & _ & Hhd & Hlast).
  unfold PyStr.strip at 1. rewrite (lstrip_id _ Hhd). by apply rstrip_id.
Qed.

(** X5. [strip] leaves a text unchanged exactly when the text has white
    space at neither end, and it turns a text made of white space only
    into the empty text. *)
Theorem strip_fixed_point (s : string) :
  (PyStr.strip s = s ↔
     (∀ c, PyStr.head s = Some c → PyStr.isspace c = false)
     ∧ (∀ c, PyStr.last s = Some c → PyStr.isspace c = false))
  ∧ (PyStr.all_space s = true → PyStr.strip s = "").
Proof.
  split; [split|].
  - intros Heq. destruct (strip_spec s) as (_ & _ & _ & _ & _ & Hhd & Hlast).
    rewrite Heq in Hhd, Hlast. done.
  - intros [Hhd Hlast]. unfold PyStr.strip. rewrite (lstrip_id _ Hhd).
    by apply rstrip_id.
  - intros Hs. unfold PyStr.strip. by rewrite lstrip_all_space.
Qed.

(** X6. Normalizing labels that are already normalized changes nothing:
    the labels of a compiled table that is uploaded again are the labels
    it was written with. *)
Theorem normalize_columns_idempotent (cols : list label) :
  normalize_columns (LStr <$> normalize_columns cols) = normalize_columns cols.
Proof.
  unfold normalize_columns. rewrite <- !list_fmap_compose.
  apply list_fmap_ext. intros i c _. cbn. apply strip_strip.
Qed.

(** X7. The download name always ends in .xlsx, whatever the letter case,
    and naming a download after a download name adds nothing more. *)
Theorem download_file_name_idempotent (filename : string) :
  ends_ci (download_file_name filename) ".xlsx"
  ∧ download_file_name (download_file_name filename)
    = download_file_name filename.
Proof.
  assert (PyStr.endswith (PyStr.lower (download_file_name filename)) ".xlsx"
          = true) as Hends.
  { unfold download_file_name.
    destruct (PyStr.endswith (PyStr.lower filename) ".xlsx") eqn:He; [done|].
    rewrite lower_app. apply endswith_true. by exists (PyStr.lower filename). }
  split; [by apply endswith_lower|].
  unfold download_file_name at 1. by rewrite Hends.
Qed.

(** X21. The default output name is offered for download as it is,
    whatever the time stamp in it. *)
Theorem default_name_kept (stamp : string) :
  download_file_name (default_name stamp) = default_name stamp.
Proof.
  unfold download_file_name, default_name.
  assert (PyStr.endswith (PyStr.lower ("compiled_" +:+ stamp +:+ ".xlsx"))
            ".xlsx" = true) as ->; [|done].
  rewrite !lower_app. apply endswith_true.
  exists (PyStr.lower "compiled_" +:+ PyStr.lower stamp).
  clear. induction (PyStr.lower "compiled_") as [|c p IH]; [done|].
  by rewrite !app_cons, IH.
Qed.

(** ** Sessions *)

Lemma concat_rows a b df_all :
  concat a b = inr df_all →
  length (rows df_all)
  = (from_option (λ df, length (rows df)) 0 a + length (rows b))%nat.
Proof.
  unfold concat. destruct a as [a|]; [|by intros [= <-]].
  case_decide; [|destruct (_ || _); [done|]]; intros [= <-]; cbn [rows from_option];
    by rewrite length_stack, ?length_fmap.
Qed.

Lemma take_stack ra rb : take (length ra) (stack ra rb) = upcast ra rb <$> ra.
Proof.
  unfold stack. rewrite <- (length_fmap (upcast ra rb) ra) at 1.
  apply take_app_length.
Qed.

(** The labels and the rows of the first frame are kept at the front of a
    concatenation; its rows gain empty cells under the new labels, and
    their cells are kept up to the conversion of a column to float64. *)
Lemma concat_keeps a b df_all :
  wf a → concat (Some a) b = inr df_all →
  ∃ new, columns df_all = columns a ++ new
    ∧ Forall2 (λ old row,
                 Forall2 same_value (old ++ replicate (length new) NaN) row)
        (rows a) (take (length (rows a)) (rows df_all)).
Proof.
  unfold concat. intros Hwf. case_decide as Heq.
  - intros [= <-]. exists []. cbn [columns rows]. rewrite app_nil_r, take_stack.
    split; [done|]. apply Forall2_fmap_r, Forall_Forall2_diag, Forall_true.
    intros row. cbn. rewrite app_nil_r. apply upcast_same_value.
  - unfold has_dup. case_bool_decide as Hnd; [|done]. cbn [negb orb].
    destruct (negb _); [done|]. intros [= <-]. eexists. cbn [columns rows].
    split; [done|].
    rewrite <- (length_fmap (reindex (columns a)
      (columns a ++ filter (λ c, c ∉ columns a) (columns b))) (rows a)).
    rewrite take_stack. apply Forall2_fmap_r, Forall2_fmap_r.
    apply Forall_Forall2_diag. eapply Forall_impl; [exact Hwf|].
    intros row Hrow. cbn in Hrow.
    rewrite <- (reindex_extend (columns a)
      (filter (λ c, c ∉ columns a) (columns b)) row); [|done..|].
    + apply upcast_same_value.
    + by intros c [Hc _]%list_elem_of_filter.
Qed.

Section SessionFacts.

Context {content : Type}.
Variable read_csv read_excel : UploadedFile content → exception + DataFrame label.
Variable save_workbook : list Sheet → exception + list Byte.byte.

Abbreviation readF := (read_any_table content read_csv read_excel).
Abbreviation pass := (upload content read_csv read_excel).
Abbreviation passes := (uploads content read_csv read_excel).
Abbreviation play := (session content read_csv read_excel).
Abbreviation shown := (trace content read_csv read_excel).
Abbreviation names_in := (accepted_files content read_csv read_excel).
Abbreviation page := (display save_workbook).

(** The four ways one pass through the upload block can end. *)
Lemma upload_outcome ctl st f :
  (∃ msg, pass ctl st f = (st, Failed msg))
  ∨ (∃ missing extra order_issue expected incoming,
       pass ctl st f
       = (st, Mismatch missing extra order_issue expected incoming))
  ∨ (∃ expected df_new,
       expected_cols st = None
       ∧ pass ctl st f
         = ({| expected_cols := Some expected;
               compiled_df := Some df_new;
               uploaded_files := uploaded_files st ++ [name f] |},
            FirstLoaded (length expected) (length (rows df_new))))
  ∨ (∃ expected df_new df_all,
       expected_cols st = Some expected
       ∧ concat (compiled_df st) df_new = inr df_all
       ∧ pass ctl st f
         = ({| expected_cols := Some expected;
               compiled_df := Some df_all;
               uploaded_files := uploaded_files st ++ [name f] |},
            Appended (length (rows df_new)) (name f))).
Proof.
  unfold upload. destruct (readF f) as [e|df]; [left; eauto|].
  destruct (expected_cols st) as [expected|] eqn:Hexp.
  - destruct (cols_match _ _).
    + destruct (concat _ _) as [e|df_all] eqn:Hcat; [left; eauto|].
      do 3 right. eauto 10.
    + destruct (diff_cols _ _) as [[missing extra] order_issue].
      right; left. eauto 10.
  - do 2 right; left. eauto 10.
Qed.

Ltac upload_cases ctl st f :=
  destruct (upload_outcome ctl st f)
    as [(? & ->) | [(? & ? & ? & ? & ? & ->)
       | [(? & ? & ? & ->) | (? & ? & ? & ? & ? & ->)]]];
  cbn [fst snd expected_cols compiled_df uploaded_files].

(** X8. The session changes only when the report is a success: a pass
    that ends in a mismatch or in an error message returns the state it
    was given, and a pass that ends in a success records exactly the
    uploaded file name, after the names already there. *)
Theorem upload_changes_only_on_success ctl st f :
  let result := upload content read_csv read_excel ctl st f in
  match result.2 with
  | FirstLoaded _ _ | Appended _ _ =>
      uploaded_files result.1 = uploaded_files st ++ [name f]
      ∧ is_Some (expected_cols result.1)
      ∧ is_Some (compiled_df result.1)
  | Mismatch _ _ _ _ _ | Failed _ => result.1 = st
  end.
Proof. cbv zeta. upload_cases ctl st f; eauto. Qed.

(** X9. The numbers in the success messages are true: after "first file
    loaded" the expected labels and the compiled table have the announced
    sizes, and after "appended" the compiled table has grown by the
    announced number of rows; any other pass leaves the row count alone. *)
Theorem upload_row_count ctl st f :
  match (pass ctl st f).2 with
  | FirstLoaded ncols nrows =>
      row_count (pass ctl st f).1 = nrows
      ∧ length <$> expected_cols (pass ctl st f).1 = Some ncols
  | Appended nrows file =>
      row_count (pass ctl st f).1 = (row_count st + nrows)%nat
      ∧ file = name f
  | Mismatch _ _ _ _ _ | Failed _ =>
      row_count (pass ctl st f).1 = row_count st
  end.
Proof.
  upload_cases ctl st f; try done.
  split; [|done]. unfold row_count. cbn. by erewrite concat_rows.
Qed.

Lemma upload_expected ctl st f expected :
  expected_cols st = Some expected →
  expected_cols (pass ctl st f).1 = Some expected.
Proof. intros Hexp. upload_cases ctl st f; congruence. Qed.

(** X10. Once set, the expected labels are not changed by any sequence of
    uploads, accepted or not, under any controls. *)
Theorem expected_cols_locked st runs expected :
  expected_cols st = Some expected →
  expected_cols (uploads content read_csv read_excel st runs) = Some expected.
Proof.
  unfold uploads. revert st.
  induction runs as [|[ctl f] runs IH]; intros st Hexp; [done|].
  cbn. apply IH. by apply upload_expected.
Qed.

Lemma upload_coherent ctl st f : coherent st → coherent (pass ctl st f).1.
Proof.
  unfold coherent. upload_cases ctl st f; try done;
    intros _ Hnil; by apply app_eq_nil in Hnil as [_ ?].
Qed.

Lemma coherent_session st evs : coherent st → coherent (play st evs).
Proof.
  unfold session. revert st.
  induction evs as [|[ctl f|] evs IH]; intros st Hst; [done|..]; cbn; apply IH.
  - by apply upload_coherent.
  - done.
Qed.

(** X11. In every state a session reaches by uploads and resets, the
    three fields go together: there are expected labels exactly when
    there is a compiled table, and then at least one file is recorded;
    otherwise none is. *)
Theorem session_coherent evs : coherent (play initial_state evs).
Proof. by apply coherent_session. Qed.

(** X12. The page shows the "no data yet" notice exactly when no file is
    recorded, in every state a session reaches. *)
Theorem display_none_iff evs filename :
  page (play initial_state evs) filename = None
  ↔ uploaded_files (play initial_state evs) = [].
Proof.
  pose proof (coherent_session initial_state evs eq_refl) as Hc.
  unfold display, coherent in *.
  destruct (expected_cols _), (compiled_df _); naive_solver.
Qed.

(** X13. Along any sequence of uploads from the initial state, the
    recorded files are the names of the uploads reported as a success, in
    order, and the compiled table has as many rows as those reports
    announced in total. *)
Theorem session_accounting runs :
  uploaded_files (passes initial_state runs) = names_in initial_state runs
  ∧ row_count (passes initial_state runs)
    = sum_list (report_rows <$> shown initial_state runs).
Proof.
  assert (∀ st, coherent st →
    uploaded_files (passes st runs) = uploaded_files st ++ names_in st runs
    ∧ row_count (passes st runs)
      = (row_count st + sum_list (report_rows <$> shown st runs))%nat) as Hgen.
  { unfold uploads. induction runs as [|[ctl f] runs IH]; intros st Hst.
    { cbn. by rewrite app_nil_r, Nat.add_0_r. }
    cbn [foldl trace accepted_files fst snd].
    destruct (IH (pass ctl st f).1 (upload_coherent ctl st f Hst)) as [Hf Hr].
    revert Hf Hr. unfold coherent in Hst.
    destruct (upload_outcome ctl st f)
      as [(? & ->) | [(? & ? & ? & ? & ? & ->)
         | [(? & df_new & Hnone & ->) | (? & df_new & df_all & _ & Hcat & ->)]]];
      cbn [fst snd fmap list_fmap sum_list report_rows accepted];
      intros -> ->; cbn [uploaded_files]; rewrite <- ?app_assoc;
      (split; [done|]); unfold id; try lia.
    - rewrite Hnone in Hst. unfold row_count.
      destruct (compiled_df st); [done|]. cbn. lia.
    - unfold row_count. cbn [compiled_df from_option].
      rewrite (concat_rows _ _ _ Hcat). lia. }
  apply (Hgen initial_state eq_refl).
Qed.

(** X14. As long as the readers return frames whose rows have one cell
    per column, so has the compiled table, in every state a session
    reaches by uploads and resets. *)
Theorem session_wf evs :
  Forall (λ ev, match ev with
                | Upload _ f => ∀ df, readF f = inr df → wf df
                | ResetClick => True
                end) evs →
  from_option wf True (compiled_df (play initial_state evs)).
Proof.
  unfold session.
  generalize initial_state (I : from_option wf True (compiled_df initial_state)).
  intros st Hst Hall. revert st Hst.
  induction Hall as [|[ctl f|] evs Hev _ IH]; intros st Hst; [done|..];
    cbn [foldl step]; apply IH; [|done].
  by apply upload_wf.
Qed.

(** X15. The upload block does not recognise a file it has already
    taken: a second pass with the file that seeded the session, under
    the same controls, appends its rows and records its name again. *)
Theorem upload_twice ctl st f df :
  expected_cols st = None →
  readF f = inr df →
  let df_new := add_source content ctl f
                  {| columns := normalize_columns (columns df);
                     rows := rows df |} in
  pass ctl (pass ctl st f).1 f
  = ({| expected_cols := Some (normalize_columns (columns df));
        compiled_df := Some {| columns := columns df_new;
                               rows := rows df_new ++ rows df_new |};
        uploaded_files := uploaded_files st ++ [name f; name f] |},
     Appended (length (rows df_new)) (name f)).
Proof.
  intros Hnone Hread df_new.
  assert ((pass ctl st f).1
          = {| expected_cols := Some (normalize_columns (columns df));
               compiled_df := Some df_new;
               uploaded_files := uploaded_files st ++ [name f] |}) as ->.
  { unfold upload. by rewrite Hread, Hnone. }
  rewrite (append_same_layout read_csv read_excel ctl _ f df
             (normalize_columns (columns df)) df_new); try done.
  - cbn [uploaded_files]. fold df_new. by rewrite stack_same, <- app_assoc.
  - unfold layout_ok. cbn. apply add_source_columns.
Qed.

(** X16. Whatever a pass through the upload block does in a seeded
    session, the rows compiled so far stay first and in order, under
    their labels, with at most empty cells added under labels that the
    pass puts after the existing ones. Their cells are kept, except that
    an integer becomes the double nearest to it when the pass turns its
    column into float64; that double is the integer itself below
    2 ^ 53. *)
Theorem compiled_rows_kept ctl st f expected compiled :
  expected_cols st = Some expected →
  compiled_df st = Some compiled →
  wf compiled →
  (∃ df_all new,
     compiled_df (pass ctl st f).1 = Some df_all
     ∧ columns df_all = columns compiled ++ new
     ∧ Forall2 (λ old row,
                  Forall2 same_value (old ++ replicate (length new) NaN) row)
         (rows compiled) (take (length (rows compiled)) (rows df_all)))
  ∧ ∀ z, Z.abs z < 2 ^ 53 → float_of_int z = z.
Proof.
  intros Hexp Hcomp Hwf. split; [|apply float_of_int_exact].
  assert (∃ new, columns compiled = columns compiled ++ new
            ∧ Forall2 (λ old row,
                Forall2 same_value (old ++ replicate (length new) NaN) row)
                (rows compiled) (take (length (rows compiled)) (rows compiled)))
    as Hsame.
  { exists []. rewrite app_nil_r, firstn_all. split; [done|].
    apply Forall_Forall2_diag, Forall_true. intros row. cbn.
    rewrite app_nil_r. apply Forall_Forall2_diag, Forall_true. by left. }
  destruct (upload_outcome ctl st f)
    as [(? & ->) | [(? & ? & ? & ? & ? & ->)
       | [(? & ? & Hnone & _) | (? & df_new & df_all & _ & Hcat & ->)]]];
    cbn [fst compiled_df].
  - destruct Hsame as [new ?]. by exists compiled, new.
  - destruct Hsame as [new ?]. by exists compiled, new.
  - congruence.
  - rewrite Hcomp in Hcat.
    destruct (concat_keeps compiled df_new df_all Hwf Hcat) as [new ?].
    by exists df_all, new.
Qed.

(** X17. When no label of the compiled table is repeated, the preview is
    the head of the table, at most 200 rows of it and all of it when it
    has no more, and the writer is handed the whole table, one header row
    and every row, however many the preview shows; the download button
    carries the bytes the writer returns. When a label is repeated the
    page stops at the preview: neither preview nor download button is
    shown. No download button is shown when the writer raises. *)
Theorem display_preview_and_export st filename :
  match display save_workbook st filename with
  | None => compiled_df st = None
  | Some d =>
      ∃ df_all,
        compiled_df st = Some df_all
        ∧ (NoDup (columns df_all) →
           ∃ shown, preview d = Some shown
             ∧ columns shown = columns df_all
             ∧ rows shown = take 200 (rows df_all)
             ∧ length (rows shown) = (200 `min` total_rows d)%nat
             ∧ ((total_rows d ≤ 200)%nat → shown = df_all))
        ∧ (¬ NoDup (columns df_all) → preview d = None ∧ download d = None)
        ∧ (∀ button, download d = Some button →
             NoDup (columns df_all)
             ∧ file_name button = download_file_name filename
             ∧ ∃ sheet,
                 save_workbook [sheet] = inr (excel_bytes button)
                 ∧ sheet_name sheet = "compiled"
                 ∧ sheet_rows sheet = (SStr <$> columns df_all) :: rows df_all
                 ∧ length (sheet_rows sheet) = S (total_rows d))
        ∧ (∀ e, save_workbook [to_excel df_all "compiled"] = inl e →
             download d = None)
        ∧ (NoDup (columns df_all) →
           ∀ bytes, save_workbook [to_excel df_all "compiled"] = inr bytes →
             download d
             = Some {| excel_bytes := bytes;
                       file_name := download_file_name filename |})
  end.
Proof.
  unfold display, to_excel_bytes, has_dup.
  destruct (compiled_df st) as [df_all|]; [|done].
  exists df_all. cbn [preview download total_rows]. split; [done|].
  case_bool_decide as Hnd; cbn [negb].
  - split.
    { intros _. exists (df_head 200 df_all). split; [done|].
      do 2 (split; [done|]). split; [apply length_take|].
      intros Hle. unfold df_head. rewrite take_ge by done. by destruct df_all. }
    split; [done|].
    destruct (save_workbook [to_excel df_all "compiled"]) as [e|bytes] eqn:Hw.
    + split; [done|]. split; [done|]. by intros _ ? [=].
    + split.
      { intros button [= <-]. cbn. split; [done|]. split; [done|].
        by exists (to_excel df_all "compiled"). }
      split; [done|]. by intros _ ? [= <-].
  - split; [done|]. split; [done|]. split; [done|].
    split; [done|]. done.
Qed.

(** X18. With the controls left alone, the "Total columns" metric is the
    number of expected labels, plus one when the provenance option is on
    and its name is not one of these labels. *)
Theorem total_columns_fixed_controls ctl files filename :
  match page (passes initial_state (pair ctl <$> files)) filename with
  | None => True
  | Some d =>
      ∃ expected,
        expected_cols (passes initial_state (pair ctl <$> files))
          = Some expected
        ∧ total_columns d
          = (length expected
             + if add_source_col ctl
                  && bool_decide (source_col_name ctl ∉ expected)
               then 1 else 0)%nat
  end.
Proof.
  pose proof (fixed_controls_layout read_csv read_excel ctl files) as Hl.
  unfold display, layout_ok in *.
  destruct (expected_cols _) as [expected|]; destruct (compiled_df _);
    try done.
  exists expected. split; [done|]. cbn. rewrite Hl. unfold source_columns.
  destruct (add_source_col ctl); cbn; [|lia].
  case_decide.
  - rewrite bool_decide_false by tauto. lia.
  - rewrite bool_decide_true by done. rewrite length_app. cbn. lia.
Qed.

Lemma lower_length (s : string) :
  String.length (PyStr.lower s) = String.length s.
Proof. induction s as [|c s IH]; [done|]. cbn. by rewrite IH. Qed.

Lemma endswith_short (s suffix : string) :
  (String.length s < String.length suffix)%nat →
  PyStr.endswith s suffix = false.
Proof.
  intros Hlt. unfold PyStr.endswith.
  by rewrite (proj2 (Nat.leb_gt _ _) Hlt).
Qed.

(** X19. A file name of fewer than four characters has no room for any
    of the three suffixes, dot included: it is always refused as an
    unsupported type, and the readers are not called. *)
Theorem short_name_unsupported f :
  (String.length (name f) < 4)%nat → readF f = inl unsupported.
Proof.
  intros Hlt. unfold read_any_table.
  rewrite !endswith_short; [done|rewrite lower_length; cbn; lia..].
Qed.

Lemma add_source_length ctl (f : UploadedFile content) df :
  length (rows (add_source content ctl f df)) = length (rows df).
Proof.
  unfold add_source, setitem. destruct (add_source_col ctl); [|done].
  case_decide; cbn; by rewrite length_fmap.
Qed.

(** X20. With the controls left alone since the start of the session, a
    readable upload whose normalized labels are the expected ones is
    always appended, repeated labels or a provenance name among the
    labels notwithstanding: the report announces its rows and its name
    joins the recorded files. *)
Theorem accepted_under_fixed_controls ctl files f df expected :
  let st := passes initial_state (pair ctl <$> files) in
  expected_cols st = Some expected →
  readF f = inr df →
  normalize_columns (columns df) = expected →
  (pass ctl st f).2 = Appended (length (rows df)) (name f)
  ∧ uploaded_files (pass ctl st f).1 = uploaded_files st ++ [name f]
  ∧ row_count (pass ctl st f).1 = (row_count st + length (rows df))%nat.
Proof.
  intros st Hexp Hread Hcols.
  pose proof (fixed_controls_layout read_csv read_excel ctl files) as Hl.
  fold st in Hl. assert (Hl' := Hl). unfold layout_ok in Hl'.
  rewrite Hexp in Hl'.
  destruct (compiled_df st) as [compiled|] eqn:Hcomp; [|done].
  rewrite (append_same_layout read_csv read_excel ctl st f df expected
             compiled Hl Hexp Hcomp Hread Hcols).
  cbn [fst snd uploaded_files]. rewrite add_source_length. cbn [rows].
  split; [done|]. split; [done|].
  unfold row_count. rewrite Hcomp. cbn [compiled_df from_option rows].
  by rewrite length_stack, add_source_length.
Qed.

End SessionFacts.

(** ** The further statements on the sample sessions *)

Lemma diff_cols_disjoint_witness :
  diff_cols ["id"; "name"] ["code"; "label"]
  = (["id"; "name"], ["code"; "label"], false).
Proof.
  apply (diff_cols_disjoint ["id"; "name"] ["code"; "label"]).
  intros c Hc Hi. revert Hc. apply (bool_decide_unpack _).
  revert c Hi. apply Forall_forall. repeat constructor; compute_done.
Defined.

Lemma diff_cols_permutation_witness :
  (diff_cols ["id"; "name"] ["name"; "id"]).2 = true
  ↔ ["id"; "name"] ≡ₚ ["name"; "id"]
    ∧ ["id"; "name"] ≠ ["name"; "id"].
Proof.
  apply (diff_cols_permutation ["id"; "name"] ["name"; "id"]);
    apply (bool_decide_unpack _); vm_compute; exact I.
Defined.

Lemma expected_cols_locked_witness :
  expected_cols
    (uploads _ Sample.reader Sample.reader Sample.seeded
       [(Sample.tagging, Sample.wider); (Sample.plain, Sample.f2);
        (Sample.tagging, Sample.notes)])
  = Some ["id"; "name"].
Proof.
  exact (expected_cols_locked Sample.reader Sample.reader Sample.seeded
           [(Sample.tagging, Sample.wider); (Sample.plain, Sample.f2);
            (Sample.tagging, Sample.notes)] ["id"; "name"] eq_refl).
Defined.

Lemma session_wf_witness :
  from_option wf True
    (compiled_df
       (session _ Sample.reader Sample.reader initial_state
          [Upload Sample.tagging Sample.f1; ResetClick;
           Upload Sample.plain Sample.f2; Upload Sample.tagging Sample.f1])).
Proof.
  apply (session_wf Sample.reader Sample.reader).
  repeat constructor; intros df [= <-]; repeat constructor.
Defined.

Lemma upload_twice_witness :
  Sample.run Sample.tagging
    (Sample.run Sample.tagging initial_state Sample.f2).1 Sample.f2
  = ({| expected_cols := Some ["id"; "name"];
        compiled_df :=
          Some {| columns := ["id"; "name"; "source_file"];
                  rows := [[SInt 3; SStr "c"; SStr "f2.csv"];
                           [SInt 3; SStr "c"; SStr "f2.csv"]] |};
        uploaded_files := ["f2.csv"; "f2.csv"] |},
     Appended 1 "f2.csv").
Proof.
  exact (upload_twice Sample.reader Sample.reader Sample.tagging
           initial_state Sample.f2 (data Sample.f2) eq_refl eq_refl).
Defined.

Lemma compiled_rows_kept_witness :
  ∃ df_all new,
    compiled_df
      (Sample.run Sample.plain
         (Sample.run Sample.plain initial_state Sample.big).1 Sample.gap).1
    = Some df_all
    ∧ columns df_all = ["id"] ++ new
    ∧ Forall2 (λ old row,
                 Forall2 same_value (old ++ replicate (length new) NaN) row)
        [[SInt 9007199254740993]] (take 1 (rows df_all)).
Proof.
  apply (compiled_rows_kept Sample.reader Sample.reader Sample.plain
           (Sample.run Sample.plain initial_state Sample.big).1 Sample.gap
           ["id"]
           {| columns := ["id"]; rows := [[SInt 9007199254740993]] |}
           eq_refl eq_refl).
  repeat constructor.
Defined.

Lemma short_name_unsupported_witness :
  read_any_table _ Sample.reader Sample.reader
    {| name := "csv"; data := data Sample.f1 |}
  = inl unsupported.
Proof.
  apply (short_name_unsupported Sample.reader Sample.reader
           {| name := "csv"; data := data Sample.f1 |}).
  cbn. lia.
Defined.

Lemma accepted_under_fixed_controls_witness :
  (Sample.run Sample.tagging
     (uploads _ Sample.reader Sample.reader initial_state
        (pair Sample.tagging <$> [Sample.twins; Sample.wider]))
     Sample.twins).2
  = Appended 1 "twins.csv".
Proof.
  exact (proj1 (accepted_under_fixed_controls Sample.reader Sample.reader
                  Sample.tagging [Sample.twins; Sample.wider] Sample.twins
                  (data Sample.twins) ["a"; "a"] eq_refl eq_refl eq_refl)).
Defined.
